(** * gdown: a shallow embedding of the downloader and its helpers

    The development follows the Python sources:
    - [gdown/constants.py]                  ([PARSING_PATTERNS])
    - [gdown/helpers/parse_url.py]          ([is_google_drive_url], [parse_url])
    - [gdown/helpers/extract_all.py]        ([extract_all])
    - [gdown/helpers/utils.py]              ([indent])
    - [gdown/downloader/_download.py]       ([get_url_from_gdrive_confirmation], [download])
    - [gdown/downloader/file_downloader.py] ([FilesDownloader.download])
    - [gdown/downloader/factory.py]         ([DownloaderFactory])

    Python [str] values are modelled by [string]: sequences of code points
    below 256.  Exceptions are modelled by the [Result] type, the file system
    by a finite map from paths to nodes that is threaded through the code.
    Functions of the Python standard library and of third-party packages
    ([urllib.parse], [bs4], [httpx], the thread pool of
    [concurrent.futures], the archive readers) are not part of the
    repository: the pure ones with a short definition ([pathlib], [re],
    [str] methods) are written out, the others are taken as parameters.
    Log output is not modelled. *)

From Stdlib Require Import Ascii String List Bool Arith Lia.
From stdpp Require Import gmap strings list.

(** ** Exceptions and results *)

(** Modelled from the spec: the exception class [FileURLRetrievalError] of
    [gdown/exceptions.py], which is not among the sources, is an exception
    that carries a message (the spec's resolution and download errors).  The
    other constructors are builtin exceptions of Python,
    [httpx.HTTPError] and [concurrent.futures.CancelledError]. *)
Inductive exn : Type :=
  | ValueError (msg : string)
  | TypeError (msg : string)
  | KeyError (key : string)
  | AttributeError (msg : string)
  | OSError (msg : string)
  | IsADirectoryError (path : string)
  | FileNotFoundError (path : string)
  | UnboundLocalError (name : string)
  | CancelledError
  | HTTPError (msg : string)
  | FileURLRetrievalError (msg : string).

Inductive Result (A : Type) : Type :=
  | Ok (a : A)
  | Raise (e : exn).
Arguments Ok {A} a.
Arguments Raise {A} e.


(** Sequencing: an exception raised by the first computation propagates.
    With these instances stdpp's notation [x ← r; k] is available. *)
#[global] Instance Result_ret : MRet Result := fun _ a => Ok a.
#[global] Instance Result_bind : MBind Result := fun _ _ k r =>
  match r with
  | Ok a => k a
  | Raise e => Raise e
  end.

(** ** Python [str] methods *)

Module Str.

Definition len (s : string) : nat := String.length s.

(** [s[n:]] *)
Fixpoint drop (n : nat) (s : string) : string :=
  match n, s with
  | O, _ => s
  | S n', String _ s' => drop n' s'
  | S _, EmptyString => EmptyString
  end.

(** [s[:n]] *)
Fixpoint take (n : nat) (s : string) : string :=
  match n, s with
  | O, _ => EmptyString
  | S n', String a s' => String a (take n' s')
  | S _, EmptyString => EmptyString
  end.

(** [s.startswith(p)] *)
Fixpoint startswith (p s : string) : bool :=
  match p, s with
  | EmptyString, _ => true
  | String a p', String b s' => Ascii.eqb a b && startswith p' s'
  | String _ _, EmptyString => false
  end.

(** [s.endswith(p)] *)
Definition endswith (p s : string) : bool :=
  (len p <=? len s)%nat && String.eqb (drop (len s - len p) s) p.

(** [s.rfind(c)] for a one-character needle; [None] stands for [-1]. *)
Fixpoint rfind (c : ascii) (s : string) : option nat :=
  match s with
  | EmptyString => None
  | String a s' =>
      match rfind c s' with
      | Some i => Some (S i)
      | None => if Ascii.eqb a c then Some 0 else None
      end
  end.

(** [s.lstrip(c)] for a one-character set. *)
Fixpoint lstrip (c : ascii) (s : string) : string :=
  match s with
  | String a s' => if Ascii.eqb a c then lstrip c s' else s
  | EmptyString => EmptyString
  end.

(** [s.split(c)] with an explicit one-character separator. *)
Fixpoint split (c : ascii) (s : string) : list string :=
  match s with
  | EmptyString => [EmptyString]
  | String a s' =>
      if Ascii.eqb a c then EmptyString :: split c s'
      else match split c s' with
           | h :: t => String a h :: t
           | [] => [String a EmptyString]
           end
  end.

(** [sep.join(l)] *)
Fixpoint join (sep : string) (l : list string) : string :=
  match l with
  | [] => EmptyString
  | [x] => x
  | x :: rest => x +:+ sep +:+ join sep rest
  end.

(** [s.replace(old, new)]: every non-overlapping occurrence, left to right.
    An empty [old] is not used by the sources and is left unchanged here. *)
Fixpoint replace_go (old new : string) (skip : nat) (s : string) : string :=
  match s with
  | EmptyString => EmptyString
  | String a s' =>
      match skip with
      | S k => replace_go old new k s'
      | O =>
          if startswith old s
          then new +:+ replace_go old new (len old - 1) s'
          else String a (replace_go old new 0 s')
      end
  end.

Definition replace (old new : string) (s : string) : string :=
  if String.eqb old EmptyString then s else replace_go old new 0 s.

(** [c in s] for a one-character needle. *)
Fixpoint contains (c : ascii) (s : string) : bool :=
  match s with
  | EmptyString => false
  | String a s' => Ascii.eqb a c || contains c s'
  end.

(** Line boundaries of [str.splitlines] among the code points below 256:
    LF, VT, FF, CR, FS, GS, RS and NEL. *)
Definition is_linebreak (a : ascii) : bool :=
  let n := Ascii.nat_of_ascii a in
  ((10 <=? n) && (n <=? 13) || (28 <=? n) && (n <=? 30) || (n =? 133))%nat.

(** [s.splitlines()]: the lines without their boundaries; CR LF is one
    boundary; a boundary at the very end opens no further line. *)
Fixpoint splitlines (s : string) : list string :=
  match s with
  | EmptyString => []
  | String a s' =>
      if is_linebreak a then
        EmptyString ::
          match s' with
          | String b s'' =>
              if Ascii.eqb a "013"%char && Ascii.eqb b "010"%char
              then splitlines s'' else splitlines s'
          | EmptyString => []
          end
      else
        match splitlines s' with
        | h :: t => String a h :: t
        | [] => [String a EmptyString]
        end
  end.

(** Truth value of a [str]: the empty string is false. *)
Definition truthy (s : string) : bool := negb (String.eqb s EmptyString).

End Str.

(** ** [pathlib]: pure POSIX paths

    A path is its root ([""], ["/"] or ["//"]) and the list of its components;
    the components hold no separator and are neither empty nor ["."].  The
    definitions follow [pathlib.PurePosixPath] of CPython 3.11. *)

Module Pathlib.

Record Path : Type := mkPath { root : string; parts : list string }.

#[global] Instance Path_eq_dec : EqDecision Path.
Proof. solve_decision. Defined.

#[global] Instance Path_countable : Countable Path :=
  inj_countable' (fun p => (root p, parts p))
                 (fun rp => mkPath rp.1 rp.2)
                 (fun p => match p with mkPath _ _ => eq_refl end).

(** [_PosixFlavour.splitroot]: exactly two leading slashes are kept as the
    root, any other number of leading slashes is one slash. *)
Definition splitroot (part : string) : string * string :=
  if Str.startswith "/" part then
    let stripped := Str.lstrip "/"%char part in
    if (Str.len part - Str.len stripped =? 2)%nat
    then ("//", stripped) else ("/", stripped)
  else ("", part).

Definition is_component (x : string) : bool :=
  negb (String.eqb x "") && negb (String.eqb x ".").

(** [Path(s)] *)
Definition of_str (s : string) : Path :=
  let '(rt, rel) := splitroot s in
  mkPath rt (List.filter is_component (Str.split "/"%char rel)).

(** [str(p)] *)
Definition str (p : Path) : string :=
  let s := root p +:+ Str.join "/" (parts p) in
  if String.eqb s "" then "." else s.

(** [p / s]: an absolute right operand replaces the left one. *)
Definition joinpath (p : Path) (s : string) : Path :=
  let q := of_str s in
  if Str.truthy (root q) then q
  else mkPath (root p) (parts p ++ parts q).

(** [p.name] *)
Definition name (p : Path) : string := List.last (parts p) "".

(** [p.parent]: a path without components is its own parent. *)
Definition parent (p : Path) : Path :=
  mkPath (root p) (List.removelast (parts p)).

(** [p.suffix]: from the last dot of the name, when that dot is neither
    the first nor the last character. *)
Definition suffix_of_name (nm : string) : string :=
  match Str.rfind "."%char nm with
  | Some i =>
      if (0 <? i)%nat && (i <? Str.len nm - 1)%nat then Str.drop i nm else ""
  | None => ""
  end.

Definition suffix (p : Path) : string := suffix_of_name (name p).

(** [p.stem]: the name without its last suffix. *)
Definition stem_of_name (nm : string) : string :=
  match Str.rfind "."%char nm with
  | Some i =>
      if (0 <? i)%nat && (i <? Str.len nm - 1)%nat then Str.take i nm else nm
  | None => nm
  end.

Definition stem (p : Path) : string := stem_of_name (name p).

(** [p.suffixes] *)
Definition suffixes (p : Path) : list string :=
  let nm := name p in
  if Str.endswith "." nm then []
  else List.map (fun s => "." +:+ s)
                (List.tl (Str.split "."%char (Str.lstrip "."%char nm))).

(** [p.with_suffix(suffix)] *)
Definition with_suffix (p : Path) (sfx : string) : Result Path :=
  if Str.contains "/"%char sfx then
    Raise (ValueError ("Invalid suffix '" +:+ sfx +:+ "'"))
  else if (Str.truthy sfx && negb (Str.startswith "." sfx))
          || String.eqb sfx "." then
    Raise (ValueError ("Invalid suffix '" +:+ sfx +:+ "'"))
  else
    let nm := name p in
    if negb (Str.truthy nm) then
      Raise (ValueError ("PosixPath('" +:+ str p +:+ "') has an empty name"))
    else
      let old_suffix := suffix p in
      let nm' :=
        if negb (Str.truthy old_suffix) then nm +:+ sfx
        else Str.take (Str.len nm - Str.len old_suffix) nm +:+ sfx in
      Ok (mkPath (root p) (List.removelast (parts p) ++ [nm'])).

End Pathlib.
Import Pathlib.

(** ** Python sequences

    A list and a tuple never compare equal, whatever their items. *)

Inductive pyseq : Type :=
  | PyList (items : list string)
  | PyTuple (items : list string).

Definition pyseq_eqb (a b : pyseq) : bool :=
  match a, b with
  | PyList x, PyList y => bool_decide (x = y)
  | PyTuple x, PyTuple y => bool_decide (x = y)
  | _, _ => false
  end.

(** [x in l] *)
Definition py_in (x : pyseq) (l : list pyseq) : bool :=
  List.existsb (pyseq_eqb x) l.

(** [l[-2:]] *)
Definition last_two {A} (l : list A) : list A :=
  List.skipn (List.length l - 2) l.

(** ** [gdown/helpers/extract_all.py] *)

Module ExtractAll.

Inductive opener : Type := zipfile_ZipFile | tarfile_open.

(** An archive object: its kind, the member names in archive order, and
    whether it has been closed. *)
Record archive : Type := mkArchive
  { ar_opener : opener; ar_names : list string; ar_closed : bool }.

(** What the archive readers do outside the model: opening the file at a
    path with an opener and a mode gives the member names or raises;
    extracting to a directory succeeds or raises. *)
Record ArchiveEnv : Type := mkArchiveEnv
  { open_archive : opener -> Path -> string -> Result (list string);
    extractall : Path -> Path -> Result unit }.

(** Effects of [extract_all] on the file system. *)
Inductive event : Type :=
  | Extracted (archive_path : Path) (target : Path).

(** The [if]/[elif] chain of [extract_all] that picks [opener, mode]. *)
Definition select_opener (path : Path) : Result (opener * string) :=
  if String.eqb (suffix path) ".zip" then Ok (zipfile_ZipFile, "r")
  else if String.eqb (suffix path) ".tar" then Ok (tarfile_open, "r")
  else if py_in (PyList (last_two (suffixes path)))
                [PyTuple [".tar"; ".gz"]; PyTuple [".tgz"]]
  then Ok (tarfile_open, "r:gz")
  else if py_in (PyList (last_two (suffixes path)))
                [PyTuple [".tar"; ".bz2"]; PyTuple [".tbz"]]
  then Ok (tarfile_open, "r:bz2")
  else Raise (ValueError ("Could not extract '" +:+ str path +:+
                          "' as no appropriate extractor is found")).

(** [namelist(f)]: [ZipFile.namelist] reads the member table kept by the
    object; [TarFile.getmembers] first checks that the archive is open. *)
Definition namelist (f : archive) : Result (list string) :=
  match ar_opener f with
  | zipfile_ZipFile => Ok (ar_names f)
  | tarfile_open =>
      if ar_closed f then Raise (OSError "TarFile is closed")
      else Ok (ar_names f)
  end.

(** [filelist(f)] *)
Definition filelist (to : Path) (f : archive) : Result (list string) :=
  names ← namelist f;
  Ok (List.map (fun fname => str (joinpath to fname)) names).

(** The target directory: [Path(to) if to else path.parent]. *)
Definition target_dir (path : Path) (to : option string) : Path :=
  match to with
  | Some t => if Str.truthy t then of_str t else parent path
  | None => parent path
  end.

(** [extract_all(path, to)]: the result and the extractions performed. *)
Definition extract_all (env : ArchiveEnv) (path : string) (to : option string)
  : Result (list string) * list event :=
  let path := of_str path in
  let to := target_dir path to in
  match select_opener path with
  | Raise e => (Raise e, [])
  | Ok (opener, mode) =>
      match open_archive env opener path mode with
      | Raise e => (Raise e, [])
      | Ok names =>
          let f := mkArchive opener names false in
          match extractall env path to with
          | Raise e => (Raise e, [])
          | Ok _ =>
              (* leaving the [with] block closes the archive *)
              let f := mkArchive (ar_opener f) (ar_names f) true in
              (filelist to f, [Extracted path to])
          end
      end
  end.

End ExtractAll.

(** ** [re]: a backtracking matcher for the patterns of the sources

    The matcher explores alternatives in the order of Python's [re]: the
    left branch of [|] first, one more iteration first for a greedy star,
    the continuation first for a lazy one.  Every iteration of a star
    consumes at least one character (true of every pattern below).  No flag
    is set: [.] matches any character but the newline, [^] matches at the
    start of the string and [$] at its end or before a final newline. *)

Module Re.

Inductive cls : Type :=
  | Any                          (* .      *)
  | NotChr (c : ascii)           (* [^c]   *)
  | Range (lo hi : ascii).       (* [lo-hi] *)

Inductive regex : Type :=
  | Lit (w : string)             (* the characters of w, each escaped *)
  | Cls (c : cls)
  | Cat (r1 r2 : regex)
  | Alt (r1 r2 : regex)          (* r1|r2 *)
  | Star (r : regex)             (* r*    *)
  | LazyStar (r : regex)         (* r*?   *)
  | Group (n : nat) (r : regex)  (* (r), the n-th opening parenthesis *)
  | Bol                          (* ^ *)
  | Eol.                         (* $ *)

(** [r+] *)
Definition Plus (r : regex) : regex := Cat r (Star r).

(** Concatenation of a non-empty sequence of patterns. *)
Fixpoint Seq (rs : list regex) : regex :=
  match rs with
  | [] => Lit ""
  | [r] => r
  | r :: rs' => Cat r (Seq rs')
  end.

Definition newline : ascii := "010"%char.

Definition cls_mem (c : cls) (a : ascii) : bool :=
  match c with
  | Any => negb (Ascii.eqb a newline)
  | NotChr x => negb (Ascii.eqb a x)
  | Range lo hi =>
      (Ascii.nat_of_ascii lo <=? Ascii.nat_of_ascii a)%nat
      && (Ascii.nat_of_ascii a <=? Ascii.nat_of_ascii hi)%nat
  end.

(** Captured groups, most recent first. *)
Definition captures : Type := list (nat * string).

Definition cont : Type := nat -> string -> captures -> option captures.

Definition orelse {A} (x y : option A) : option A :=
  match x with Some _ => x | None => y end.

(** The iterations of a star, over the matcher [step] of its body and the
    continuation [k] of the star.  [fuel] bounds the number of iterations
    by the number of characters left. *)
Section Loops.
Variable step : nat -> string -> captures -> cont -> option captures.
Variable k : cont.

Fixpoint greedy_loop (fuel : nat) (pos : nat) (s : string)
         (caps : captures) : option captures :=
  match fuel with
  | O => k pos s caps
  | S fuel' =>
      orelse
        (step pos s caps (fun pos' s' caps' =>
           if (pos <? pos')%nat then greedy_loop fuel' pos' s' caps'
           else None))
        (k pos s caps)
  end.

Fixpoint lazy_loop (fuel : nat) (pos : nat) (s : string)
         (caps : captures) : option captures :=
  orelse
    (k pos s caps)
    (match fuel with
     | O => None
     | S fuel' =>
         step pos s caps (fun pos' s' caps' =>
           if (pos <? pos')%nat then lazy_loop fuel' pos' s' caps'
           else None)
     end).
End Loops.

(** [rmatch r pos s caps k]: match [r] at offset [pos], where [s] is the
    rest of the subject, then continue with [k]. *)
Fixpoint rmatch (r : regex) (pos : nat) (s : string) (caps : captures)
         (k : cont) {struct r} : option captures :=
  match r with
  | Lit w =>
      if Str.startswith w s
      then k (pos + Str.len w) (Str.drop (Str.len w) s) caps
      else None
  | Cls c =>
      match s with
      | String a s' => if cls_mem c a then k (S pos) s' caps else None
      | EmptyString => None
      end
  | Cat r1 r2 =>
      rmatch r1 pos s caps (fun pos' s' caps' => rmatch r2 pos' s' caps' k)
  | Alt r1 r2 =>
      orelse (rmatch r1 pos s caps k) (rmatch r2 pos s caps k)
  | Star r1 => greedy_loop (rmatch r1) k (Str.len s) pos s caps
  | LazyStar r1 => lazy_loop (rmatch r1) k (Str.len s) pos s caps
  | Group n r1 =>
      (* the group captures what [r1] has consumed of [s] *)
      rmatch r1 pos s caps (fun pos' s' caps' =>
        k pos' s' ((n, Str.take (Str.len s - Str.len s') s) :: caps'))
  | Bol => if (pos =? 0)%nat then k pos s caps else None
  | Eol =>
      if String.eqb s "" || String.eqb s (String newline "")
      then k pos s caps else None
  end.

Definition accept : cont := fun _ _ caps => Some caps.

(** [re.match(r, s)] *)
Definition re_match (r : regex) (s : string) : option captures :=
  rmatch r 0 s [] accept.

(** [re.search(r, s)]: the first offset at which the pattern matches. *)
Fixpoint search_from (r : regex) (pos : nat) (s : string)
  : option captures :=
  orelse (rmatch r pos s [] accept)
         (match s with
          | String _ s' => search_from r (S pos) s'
          | EmptyString => None
          end).

Definition re_search (r : regex) (s : string) : option captures :=
  search_from r 0 s.

(** [m.groups()[n-1]]: [None] for a group that took no part in the match. *)
Fixpoint group (n : nat) (caps : captures) : option string :=
  match caps with
  | [] => None
  | (m, t) :: rest => if (m =? n)%nat then Some t else group n rest
  end.

End Re.
Import Re.

(** ** [gdown/constants.py] *)

Definition edit_view : regex := Alt (Lit "edit") (Lit "view").
Definition edit_htmlview_view : regex :=
  Alt (Lit "edit") (Alt (Lit "htmlview") (Lit "view")).
Definition digits : regex := Plus (Cls (Range "0" "9")).

Definition PARSING_PATTERNS : list regex :=
  [ (* ^/file/d/(.*?)/(edit|view)$ *)
    Seq [Bol; Lit "/file/d/"; Group 1 (LazyStar (Cls Any)); Lit "/";
         Group 2 edit_view; Eol];
    (* ^/file/u/[0-9]+/d/(.*?)/(edit|view)$ *)
    Seq [Bol; Lit "/file/u/"; digits; Lit "/d/";
         Group 1 (LazyStar (Cls Any)); Lit "/"; Group 2 edit_view; Eol];
    (* ^/document/d/(.*?)/(edit|htmlview|view)$ *)
    Seq [Bol; Lit "/document/d/"; Group 1 (LazyStar (Cls Any)); Lit "/";
         Group 2 edit_htmlview_view; Eol];
    (* ^/document/u/[0-9]+/d/(.*?)/(edit|htmlview|view)$ *)
    Seq [Bol; Lit "/document/u/"; digits; Lit "/d/";
         Group 1 (LazyStar (Cls Any)); Lit "/"; Group 2 edit_htmlview_view;
         Eol];
    (* ^/presentation/d/(.*?)/(edit|htmlview|view)$ *)
    Seq [Bol; Lit "/presentation/d/"; Group 1 (LazyStar (Cls Any)); Lit "/";
         Group 2 edit_htmlview_view; Eol];
    (* ^/presentation/u/[0-9]+/d/(.*?)/(edit|htmlview|view)$ *)
    Seq [Bol; Lit "/presentation/u/"; digits; Lit "/d/";
         Group 1 (LazyStar (Cls Any)); Lit "/"; Group 2 edit_htmlview_view;
         Eol];
    (* ^/spreadsheets/d/(.*?)/(edit|htmlview|view)$ *)
    Seq [Bol; Lit "/spreadsheets/d/"; Group 1 (LazyStar (Cls Any)); Lit "/";
         Group 2 edit_htmlview_view; Eol];
    (* ^/spreadsheets/u/[0-9]+/d/(.*?)/(edit|htmlview|view)$ *)
    Seq [Bol; Lit "/spreadsheets/u/"; digits; Lit "/d/";
         Group 1 (LazyStar (Cls Any)); Lit "/"; Group 2 edit_htmlview_view;
         Eol] ].

(** The table has two shapes of pattern: a literal prefix before the
    identifier, or a literal prefix, an account number and [/d/]. *)
Definition id_and_ending (endings : regex) : regex :=
  Seq [Group 1 (LazyStar (Cls Any)); Lit "/"; Group 2 endings; Eol].

Definition plain_pattern (prefix : string) (endings : regex) : regex :=
  Cat Bol (Cat (Lit prefix) (id_and_ending endings)).

Definition account_pattern (prefix : string) (endings : regex) : regex :=
  Cat Bol (Cat (Lit prefix) (Cat digits (Cat (Lit "/d/") (id_and_ending endings)))).

(** ** Python dictionaries

    A [dict] keeps its keys in insertion order; assigning to a key that is
    present keeps its position. *)

Definition dict (V : Type) : Type := list (string * V).

Fixpoint dict_get {V} (k : string) (d : dict V) : option V :=
  match d with
  | [] => None
  | (k', v) :: d' => if String.eqb k' k then Some v else dict_get k d'
  end.

(** [k in d] *)
Definition dict_mem {V} (k : string) (d : dict V) : bool :=
  match dict_get k d with Some _ => true | None => false end.

(** [d[k] = v] *)
Fixpoint dict_set {V} (k : string) (v : V) (d : dict V) : dict V :=
  match d with
  | [] => [(k, v)]
  | (k', v') :: d' =>
      if String.eqb k' k then (k, v) :: d' else (k', v') :: dict_set k v d'
  end.

(** ** [urllib.parse] and [bs4], taken as given

    [urlparse] and [urlsplit] raise [ValueError] on some malformed network
    locations.  [parse_qs] maps each query field to the list of its values.
    [urlencode] is called with [doseq=True] on a dictionary whose values are
    lists (from [parse_qs]) or single strings (assigned by the caller).
    [unquote] decodes percent escapes. *)

Record ParseResult : Type := mkParseResult
  { pr_hostname : option string; pr_path : string; pr_query : string }.

Record SplitResult : Type := mkSplitResult
  { sr_scheme : string; sr_netloc : string; sr_path : string;
    sr_query : string; sr_fragment : string }.

Inductive qvalue : Type :=
  | QList (vs : list string)
  | QStr (v : string).

Class UrlLib : Type := mkUrlLib
  { urlparse : string -> Result ParseResult;
    urlsplit : string -> Result SplitResult;
    parse_qs : string -> dict (list string);
    urlencode : dict qvalue -> string;
    urlunsplit : SplitResult -> string;
    unquote : string -> string }.

(** The element [soup.select_one("#download-form")] found in a line, as far
    as the caller reads it: its [action] attribute and, for each descendant
    [input] of type [hidden] in document order, its [name] and [value]
    attributes.  A missing attribute is [None]; subscripting it raises
    [KeyError]. *)
Record form : Type := mkForm
  { form_action : option string;
    form_hidden : list (option string * option string) }.

Class HtmlLib : Type := mkHtmlLib
  { select_download_form : string -> option form }.

(** [tag[attr]] *)
Definition attr (name : string) (v : option string) : Result string :=
  match v with
  | Some s => Ok s
  | None => Raise (KeyError name)
  end.

(** ** [gdown/helpers/parse_url.py] *)

Section ParseUrl.
Context `{UrlLib}.

Definition is_google_drive_url (url : string) : Result bool :=
  parsed ← urlparse url;
  Ok (bool_decide
        (pr_hostname parsed ∈ [Some "drive.google.com"; Some "docs.google.com"])).

(** The [for pattern in PARSING_PATTERNS] loop: the first pattern that
    matches the path gives the identifier and ends the loop. *)
Fixpoint match_patterns (patterns : list regex) (path : string)
         (file_id : option string) : option string :=
  match patterns with
  | [] => file_id
  | pattern :: rest =>
      match re_match pattern path with
      | Some m => group 1 m
      | None => match_patterns rest path file_id
      end
  end.

(** [str(file_id)] inside the f-string of the warning. *)
Definition format_file_id (file_id : option string) : string :=
  match file_id with Some s => s | None => "None" end.

Definition not_download_link_warning (file_id : option string) : string :=
  "You specified a Google Drive link that is not the correct link "
  +:+ "to download a file. You might want to try `--fuzzy` option "
  +:+ "or the following url: "
  +:+ "https://drive.google.com/uc?id=" +:+ format_file_id file_id.

(** [parse_url(url, warning)] over a given pattern table: the returned
    tuple and the warnings issued. *)
Definition parse_url_with (patterns : list regex) (url : string)
           (warning : bool)
  : Result (option string * bool * list string) :=
  parsed ← urlparse url;
  let query := parse_qs (pr_query parsed) in
  is_gdrive ← is_google_drive_url url;
  let is_download_link := Str.endswith "/uc" (pr_path parsed) in
  if negb is_gdrive then Ok (None, is_download_link, [])
  else
    let file_id : option string :=
      if dict_mem "id" query then
        match dict_get "id" query with
        | Some [file_id] => Some file_id
        | _ => None
        end
      else match_patterns patterns (pr_path parsed) None in
    let warnings :=
      if warning && negb is_download_link
      then [not_download_link_warning file_id] else [] in
    Ok (file_id, is_download_link, warnings).

Definition parse_url (url : string) (warning : bool)
  : Result (option string * bool * list string) :=
  parse_url_with PARSING_PATTERNS url warning.

End ParseUrl.

(** ** The documented path shapes

    The shapes as the specification words them, next to the table
    [PARSING_PATTERNS] of the source: a kind, an optional multi-account
    segment [/u/<digits>], the identifier after [/d/], and a final segment
    among [edit], [view] and [htmlview]. *)

Inductive doc_kind : Type := KFile | KDocument | KPresentation | KSpreadsheets.

Definition kind_name (k : doc_kind) : string :=
  match k with
  | KFile => "file"
  | KDocument => "document"
  | KPresentation => "presentation"
  | KSpreadsheets => "spreadsheets"
  end.

Definition shape_path (k : doc_kind) (account : option string)
           (id ending : string) : string :=
  "/" +:+ kind_name k
  +:+ match account with
      | Some ds => "/u/" +:+ ds +:+ "/d/"
      | None => "/d/"
      end
  +:+ id +:+ "/" +:+ ending.

Definition documented_endings : list string := ["edit"; "view"; "htmlview"].

(** The final segments that the table accepts for each kind. *)
Definition table_endings (k : doc_kind) : list string :=
  match k with
  | KFile => ["edit"; "view"]
  | _ => ["edit"; "htmlview"; "view"]
  end.

(** The alternation in the patterns of each kind. *)
Definition endings_regex (k : doc_kind) : regex :=
  match k with KFile => edit_view | _ => edit_htmlview_view end.

Fixpoint all_chars (f : ascii -> bool) (s : string) : bool :=
  match s with
  | EmptyString => true
  | String a s' => f a && all_chars f s'
  end.

(** A non-empty run of decimal digits. *)
Definition is_account (ds : string) : bool :=
  Str.truthy ds && all_chars (cls_mem (Range "0" "9")) ds.

(** No line feed, as in every path that [urlparse] returns. *)
Definition no_newline (s : string) : bool :=
  all_chars (fun a => negb (Ascii.eqb a newline)) s.

(** ** [gdown/downloader/_download.py]: the confirmation page *)

(** The double quote, as a character and as a string, and the backslash.
    In the comments below the patterns of the source are quoted with Q for
    the double quote. *)
Definition dquote : ascii := "034"%char.
Definition dq : string := String dquote "".
Definition backslash : string := String "092"%char "".

(** The pattern "href=Q(\/uc\?export=download[^Q]+)" *)
Definition href_pattern : regex :=
  Seq [Lit ("href=" +:+ dq);
       Group 1 (Cat (Lit "/uc?export=download") (Plus (Cls (NotChr dquote))))].

(** The pattern "QdownloadUrlQ:Q([^Q]+)" *)
Definition downloadUrl_pattern : regex :=
  Seq [Lit (dq +:+ "downloadUrl" +:+ dq +:+ ":" +:+ dq);
       Group 1 (Plus (Cls (NotChr dquote)))].

(** The pattern "<p class=Quc-error-subcaptionQ>(G)</p>", where G is a
    greedy star of the dot. *)
Definition error_open_tag : string :=
  "<p class=" +:+ dq +:+ "uc-error-subcaption" +:+ dq +:+ ">".

Definition error_pattern : regex :=
  Seq [Lit error_open_tag; Group 1 (Star (Cls Any)); Lit "</p>"].

(** [m.groups()[0]]; group 1 takes part in every match of these patterns. *)
Definition group1 (m : captures) : string := default "" (group 1 m).

Definition cannot_retrieve_message : string :=
  "Cannot retrieve the public link of the file. "
  +:+ "You may need to change the permission to "
  +:+ "'Anyone with the link', or have had many accesses. ".

Section Confirmation.
Context `{UrlLib} `{HtmlLib}.

(** The loop over the hidden inputs: the right-hand side [param["value"]]
    is evaluated before the subscript [param["name"]]. *)
Fixpoint merge_hidden (inputs : list (option string * option string))
         (query_params : dict qvalue) : Result (dict qvalue) :=
  match inputs with
  | [] => Ok query_params
  | (name, value) :: rest =>
      v ← attr "value" value;
      n ← attr "name" name;
      merge_hidden rest (dict_set n (QStr v) query_params)
  end.

(** The body of the [if form is not None] branch. *)
Definition url_from_form (f : form) : Result string :=
  action ← attr "action" (form_action f);
  let url := Str.replace "&amp;" "&" action in
  url_components ← urlsplit url;
  let query_params :=
    List.map (fun kv => (kv.1, QList kv.2))
             (parse_qs (sr_query url_components)) in
  query_params ← merge_hidden (form_hidden f) query_params;
  let query := urlencode query_params in
  Ok (urlunsplit
        (mkSplitResult (sr_scheme url_components) (sr_netloc url_components)
                       (sr_path url_components) query
                       (sr_fragment url_components))).

(** One iteration of the loop over the lines: [Ok (Some url)] leaves the
    loop with [url] ([break]), [Ok None] goes on to the next line, and
    [Raise] leaves the function. *)
Definition scan_line (line : string) : Result (option string) :=
  match re_search href_pattern line with
  | Some m =>
      let url := "https://docs.google.com" +:+ group1 m in
      Ok (Some (Str.replace "&amp;" "&" url))
  | None =>
      match select_download_form line with
      | Some f => url ← url_from_form f; Ok (Some url)
      | None =>
          match re_search downloadUrl_pattern line with
          | Some m =>
              let url := group1 m in
              Ok (Some (Str.replace (backslash +:+ "u0026") "&"
                          (Str.replace (backslash +:+ "u003d") "=" url)))
          | None =>
              match re_search error_pattern line with
              | Some m => Raise (FileURLRetrievalError (group1 m))
              | None => Ok None
              end
          end
      end
  end.

(** The [for line in contents.splitlines()] loop; [url] starts as [""]. *)
Fixpoint scan_lines (lines : list string) (url : string) : Result string :=
  match lines with
  | [] => Ok url
  | line :: rest =>
      r ← scan_line line;
      match r with
      | Some url' => Ok url'
      | None => scan_lines rest url
      end
  end.

Definition get_url_from_gdrive_confirmation (contents : string)
  : Result string :=
  url ← scan_lines (Str.splitlines contents) "";
  if negb (Str.truthy url)
  then Raise (FileURLRetrievalError cannot_retrieve_message)
  else Ok url.

End Confirmation.

(** ** The file system

    A finite map from paths to nodes.  Paths are compared as [pathlib]
    compares them (no symbolic links, no resolution against the working
    directory); a path without components (the working directory or the
    root) is a directory that always exists.  The successful operations are
    recorded in a trace. *)

Inductive node : Type :=
  | File (content : string)
  | Dir.

Inductive fs_event : Type :=
  | Opened (p : Path)
  | Wrote (p : Path) (chunk : string)
  | Renamed (src dst : Path)
  | Unlinked (p : Path)
  | Saved (p : Path).

Record World : Type := mkWorld
  { files : gmap Path node; trace : list fs_event }.

(** Operations of the body of [download] that can fail for reasons the map
    does not show (permissions, a full disk, a missing parent directory). *)
Inductive fs_op : Type :=
  | OpOpen (p : Path)
  | OpWrite (p : Path) (i : nat)
  | OpRename (src dst : Path)
  | OpSave (p : Path).

(** State and exceptions: a computation maps a world to a result and the
    world it leaves. *)
Definition M (A : Type) : Type := World -> Result A * World.

#[global] Instance M_ret : MRet M := fun _ a w => (Ok a, w).
#[global] Instance M_bind : MBind M := fun _ _ k m w =>
  match m w with
  | (Ok a, w') => k a w'
  | (Raise e, w') => (Raise e, w')
  end.

Definition raise {A} (e : exn) : M A := fun w => (Raise e, w).
Definition lift {A} (r : Result A) : M A := fun w => (r, w).
Definition record (ev : fs_event) : M unit :=
  fun w => (Ok tt, mkWorld (files w) (trace w ++ [ev])).
Definition set_files (fs : gmap Path node) : M unit :=
  fun w => (Ok tt, mkWorld fs (trace w)).

(** [try: body except Exception as e: handler(e)] *)
Definition try_except {A} (body : M A) (handler : exn -> M A) : M A :=
  fun w =>
    match body w with
    | (Ok a, w') => (Ok a, w')
    | (Raise e, w') => handler e w'
    end.

Definition no_components (p : Path) : bool :=
  match parts p with [] => true | _ => false end.

(** [p.is_dir()] *)
Definition is_dir (w : World) (p : Path) : bool :=
  no_components p
  || match files w !! p with Some Dir => true | _ => false end.

(** [p.exists()] *)
Definition path_exists (w : World) (p : Path) : bool :=
  no_components p
  || match files w !! p with Some _ => true | None => false end.

Section FileSystem.
Variable fault : fs_op -> option exn.

Definition check_fault (op : fs_op) : M unit :=
  match fault op with
  | Some e => raise e
  | None => mret tt
  end.

(** [p.open("wb")]: creates the file or truncates it. *)
Definition open_wb (p : Path) : M unit :=
  fun w =>
    if is_dir w p then (Raise (IsADirectoryError (str p)), w)
    else (_ ← check_fault (OpOpen p);
          _ ← set_files (<[p := File ""]> (files w));
          record (Opened p)) w.

(** [f.write(chunk)] on the file opened at [p]; [i] counts the chunks. *)
Definition write (p : Path) (i : nat) (chunk : string) : M unit :=
  fun w =>
    (_ ← check_fault (OpWrite p i);
     _ ← set_files (alter (fun n => match n with
                                     | File c => File (c +:+ chunk)
                                     | Dir => Dir
                                     end) p (files w));
     record (Wrote p chunk)) w.

(** [src.rename(dst)] for a file [src]: replaces a file at [dst], fails on
    a directory at [dst], and does nothing when both are the same path. *)
Definition rename (src dst : Path) : M unit :=
  fun w =>
    match files w !! src with
    | None => (Raise (FileNotFoundError (str src)), w)
    | Some n =>
        if is_dir w dst then (Raise (IsADirectoryError (str dst)), w)
        else (_ ← check_fault (OpRename src dst);
              _ ← set_files (if bool_decide (src = dst) then files w
                             else <[dst := n]> (delete src (files w)));
              record (Renamed src dst)) w
    end.

(** [p.unlink()] *)
Definition unlink (p : Path) : M unit :=
  fun w =>
    if is_dir w p then (Raise (IsADirectoryError (str p)), w)
    else match files w !! p with
         | None => (Raise (FileNotFoundError (str p)), w)
         | Some _ => (_ ← set_files (delete p (files w));
                      record (Unlinked p)) w
         end.

(** [cookie_jar.save()] to the file at [p]. *)
Definition save_file (p : Path) (content : string) : M unit :=
  fun w =>
    if is_dir w p then (Raise (IsADirectoryError (str p)), w)
    else (_ ← check_fault (OpSave p);
          _ ← set_files (<[p := File content]> (files w));
          record (Saved p)) w.

End FileSystem.

(** ** [gdown/downloader/_download.py]: the transfer *)

Definition USER_AGENT : string :=
  "Mozilla/5.0 (Macintosh; Intel Mac OS X 10_10_1) AppleWebKit/537.36 "
  +:+ "(KHTML, like Gecko) Chrome/39.0.2171.95 Safari/537.36".

(** Modelled from the spec: the class [GdownRsp] of [gdown/models.py], which
    is not among the sources.  The spec describes it as the record of the
    source URL, the final output path, the optional last-modified timestamp
    and the elapsed time; the fields are named as [download] passes them. *)
Record GdownRsp : Type := mkGdownRsp
  { rsp_url : string;
    rsp_output : string;
    rsp_last_modified : option string;
    rsp_total_time : string }.

(** An [httpx] response as [download] reads it: header lookup, the chunks
    that [iter_bytes] yields, the exception it raises after them (if any),
    and what iterating over [client.cookies] yields once the response has
    arrived: the names of the cookies that the client holds. *)
Record Response : Type := mkResponse
  { header : string -> option string;
    chunks : list string;
    stream_error : option exn;
    client_cookies : list string }.

Record Client : Type := mkClient
  { cl_proxy : option string; cl_user_agent : string;
    cl_cookies : list string }.

(** What lies outside the repository: the home directory, the cookie-file
    format, the network ([client.get] followed by [raise_for_status]), the
    date parser of [email.utils], the builtin [int] on a header value, the
    clock, and the failures of file operations that the map does not show. *)
Record SysEnv : Type := mkSysEnv
  { home : Path;
    cookiejar_load : string -> Result (list string);
    cookiejar_dump : list string -> string;
    http_get : Client -> string -> bool -> Result Response;
    parsedate_to_datetime : string -> Result string;
    py_int : string -> Result Z;
    total_time : string;
    fault : fs_op -> option exn }.

(** [str(e)] *)
Definition exn_str (e : exn) : string :=
  match e with
  | ValueError m | TypeError m | AttributeError m | OSError m | HTTPError m
  | FileURLRetrievalError m => m
  | CancelledError => ""
  | KeyError k => "'" +:+ k +:+ "'"
  | IsADirectoryError p => "[Errno 21] Is a directory: '" +:+ p +:+ "'"
  | FileNotFoundError p =>
      "[Errno 2] No such file or directory: '" +:+ p +:+ "'"
  | UnboundLocalError n =>
      "cannot access local variable '" +:+ n
      +:+ "' where it is not associated with a value"
  end.

(** The [output] argument: [None], a [str] or a [Path]. *)
Inductive path_arg : Type :=
  | ArgNone
  | ArgStr (s : string)
  | ArgPath (p : Path).

(** The pattern "filename\*=UTF-8''(G)", where G is a greedy star of the
    dot. *)
Definition filename_star_pattern : regex :=
  Seq [Lit "filename*=UTF-8''"; Group 1 (Star (Cls Any))].

(** The pattern "attachment; filename=Q(.*?)Q" *)
Definition attachment_pattern : regex :=
  Seq [Lit ("attachment; filename=" +:+ dq); Group 1 (LazyStar (Cls Any));
       Lit dq].

(** [temp_file = output.with_suffix(".part")] *)
Definition temp_path (output : Path) : Result Path :=
  with_suffix output ".part".

Section Download.
Context `{UrlLib} (env : SysEnv).

Definition _get_filename_from_response (response : Response)
  : option string :=
  let content_disposition :=
    unquote (default "" (header response "Content-Disposition")) in
  match re_search filename_star_pattern content_disposition with
  | Some m => Some (Str.replace "/" "_" (group1 m))
  | None =>
      match re_search attachment_pattern content_disposition with
      | Some m => Some (group1 m)
      | None => None
      end
  end.

Definition _get_modified_time_from_response (response : Response)
  : Result (option string) :=
  match header response "Last-Modified" with
  | None => Ok None
  | Some v => d ← parsedate_to_datetime env v; Ok (Some d)
  end.

Definition cookies_path : Path :=
  joinpath (home env) ".cache/gdown/cookies.txt".

Definition _get_session (proxy : option string) (use_cookies : bool)
           (user_agent : string) : M (Client * Path) :=
  fun w =>
    let cookies_file := cookies_path in
    if use_cookies && path_exists w cookies_file then
      match files w !! cookies_file with
      | Some (File c) =>
          match cookiejar_load env c with
          | Ok cookie_jar =>
              (Ok (mkClient proxy user_agent cookie_jar, cookies_file), w)
          | Raise e => (Raise e, w)
          end
      | _ => (Raise (IsADirectoryError (str cookies_file)), w)
      end
    else (Ok (mkClient proxy user_agent [], cookies_file), w).

(** The [for chunk in response.iter_bytes(...)] loop. *)
Fixpoint write_chunks (f : Path) (i : nat) (cs : list string) : M unit :=
  match cs with
  | [] => mret tt
  | chunk :: rest =>
      _ ← write (fault env) f i chunk;
      write_chunks f (S i) rest
  end.

Definition stream_to (f : Path) (response : Response) : M unit :=
  _ ← write_chunks f 0 (chunks response);
  match stream_error response with
  | Some e => raise e
  | None => mret tt
  end.

(** The statements of the second [try] block up to the assignment of
    [temp_file]: the modification time, [output] and [temp_file]. *)
Definition plan (url : string) (output : path_arg) (response : Response)
           (w : World) : Result (option string * Path * Path) :=
  let filename_from_url :=
    match _get_filename_from_response response with
    | Some f => if Str.truthy f then f else name (of_str url)
    | None => name (of_str url)
    end in
  last_modified ← _get_modified_time_from_response response;
  let output :=
    match output with
    | ArgPath p => p
    | ArgStr s => if Str.truthy s then of_str s else of_str filename_from_url
    | ArgNone => of_str filename_from_url
    end in
  let output :=
    if is_dir w output then joinpath output filename_from_url else output in
  temp_file ← temp_path output;
  Ok (last_modified, output, temp_file).

(** The body of [if use_cookies]: a new jar, the loop that hands every
    item of [client.cookies] to [cookie_jar.set_cookie], and
    [cookie_jar.save()].  The items are the names of the cookies, of type
    [str]; [set_cookie] reads the attribute [domain] of its argument, so
    the first item makes it raise [AttributeError].  When the client holds
    no cookie the loop is empty and the empty jar is saved. *)
Definition save_cookies (cookies_file : Path) (response : Response)
  : M unit :=
  match client_cookies response with
  | [] => save_file (fault env) cookies_file (cookiejar_dump env [])
  | _ :: _ =>
      raise (AttributeError "'str' object has no attribute 'domain'")
  end.

(** The statements from [temp_file.open] to [return resp]. *)
Definition transfer (url : string) (use_cookies : bool)
           (cookies_file : Path) (response : Response)
           (last_modified : option string) (output temp_file : Path)
  : M GdownRsp :=
  _ ← open_wb (fault env) temp_file;
  _ ← lift (match header response "Content-Length" with
            | Some v => py_int env v
            | None => Ok 0%Z
            end);
  _ ← stream_to temp_file response;
  _ ← rename (fault env) temp_file output;
  _ ← (if use_cookies then save_cookies cookies_file response
       else mret tt);
  mret (mkGdownRsp url (str output) last_modified (total_time env)).

(** The [except Exception] handler of the second [try] block, entered
    with [temp_file] assigned. *)
Definition cleanup (temp_file : Path) (e : exn) : M GdownRsp :=
  fun w =>
    (_ ← (if path_exists w temp_file then unlink temp_file else mret tt);
     raise (FileURLRetrievalError ("Download failed due to " +:+ exn_str e)))
    w.

(** The first [try] block: the session, the request and the status
    check.  Only [httpx.HTTPError] is caught. *)
Definition connect (url : string) (proxy : option string)
           (use_cookies verify : bool) (user_agent : string)
  : M (Client * Path * Response) :=
  try_except
    ('(client, cookies_file) ← _get_session proxy use_cookies user_agent;
     response ← lift (http_get env client url verify);
     mret (client, cookies_file, response))
    (fun e =>
       match e with
       | HTTPError _ =>
           raise (FileURLRetrievalError
                    ("Failed to retrieve file from " +:+ url))
       | _ => raise e
       end).

Definition download (url : string) (output : path_arg)
           (proxy : option string) (use_cookies verify : bool)
           (user_agent : option string) : M GdownRsp :=
  let user_agent :=
    match user_agent with
    | Some ua => if Str.truthy ua then ua else USER_AGENT
    | None => USER_AGENT
    end in
  fun w =>
    match connect url proxy use_cookies verify user_agent w with
    | (Raise e, w') => (Raise e, w')
    | (Ok (client, cookies_file, response), w') =>
        match plan url output response w' with
        | Raise e =>
            (* the handler reads [temp_file], which is not assigned yet *)
            (Raise (UnboundLocalError "temp_file"), w')
        | Ok (last_modified, output, temp_file) =>
            try_except
              (transfer url use_cookies cookies_file response last_modified
                        output temp_file)
              (cleanup temp_file) w'
        end
    end.

End Download.

(** ** [gdown/downloader/file_downloader.py] *)

(** The [url] argument: a [str], a [list] of [str], or anything else. *)
Inductive url_arg : Type :=
  | UrlStr (u : string)
  | UrlList (us : list string)
  | UrlOther.

(** The values [FilesDownloader.download] returns. *)
Inductive pyval : Type :=
  | PyNone
  | PyRsp (r : GdownRsp)
  | PyListOf (items : list (option GdownRsp)).   (* an item [None] is Python's [None] *)

(** The state of a future of the pool when the result iterator reads it
    or, for a future that is not read, when the pool is shut down. *)
Inductive future (A : Type) : Type :=
  | Returned (a : A)      (* the call has returned [a] *)
  | Failed (e : exn)      (* the call has raised [e] *)
  | Cancelled.            (* the call was cancelled before it started *)
Arguments Returned {A} a.
Arguments Failed {A} e.
Arguments Cancelled {A}.

Definition is_returned {A} (f : future A) : bool :=
  match f with Returned _ => true | _ => false end.

(** [concurrent.futures] lies outside the repository.  Which of the
    submitted calls the pool starts, how the file operations of the running
    calls interleave, and what the file system holds when the [with] block
    is left, is not fixed by the code of [FilesDownloader.download]: for the
    calls of [fn] on the URLs, from a file system, a pool gives the state of
    the future of the [i]-th call and the file system that is left. *)
Record Pool : Type := mkPool
  { future_of :
      (string -> M GdownRsp) -> list string -> World -> nat -> future GdownRsp;
    world_after : (string -> M GdownRsp) -> list string -> World -> World }.

(** The list comprehension of [Executor.map] that submits the calls: one
    future per URL, in input order. *)
Definition submit_all (pool : Pool) (fn : string -> M GdownRsp)
           (urls : list string) (w : World) : list (future GdownRsp) :=
  imap (fun i _ => future_of pool fn urls w i) urls.

(** [future.result()] *)
Definition future_result {A} (f : future A) : Result A :=
  match f with
  | Returned a => Ok a
  | Failed e => Raise e
  | Cancelled => Raise CancelledError
  end.

(** [list(result_iterator())]: the futures are read in input order; the
    first exception leaves the iterator, whose [finally] block cancels the
    futures that have not started, and no list is built. *)
Fixpoint result_iterator {A} (fs : list (future A)) : Result (list A) :=
  match fs with
  | [] => Ok []
  | f :: rest =>
      a ← future_result f;
      l ← result_iterator rest;
      Ok (a :: l)
  end.

Module FilesDownloader.
Section FilesDownloader.
Context `{UrlLib} (env : SysEnv) (pool : Pool).

Definition download (url : url_arg) (output : path_arg)
           (proxy : option string) (use_cookies verify : bool)
           (user_agent : option string) (w : World) : pyval * World :=
  match url with
  | UrlStr u =>
      match download env u output proxy use_cookies verify user_agent w with
      | (Ok r, w') => (PyRsp r, w')
      | (Raise e, w') => (PyNone, w')
      end
  | UrlList us =>
      let fn := fun u => download env u output proxy use_cookies verify
                                  user_agent in
      match result_iterator (submit_all pool fn us w) with
      | Ok results =>
          (PyListOf (List.map Some results), world_after pool fn us w)
      | Raise e => (PyNone, world_after pool fn us w)
      end
  | UrlOther => (PyNone, w)
  end.

End FilesDownloader.
End FilesDownloader.

(** ** Reference instances of the library interfaces

    Used to run the definitions on concrete inputs.  [UrllibRef] follows
    [urllib.parse] of CPython 3.11 on URLs made of printable ASCII characters
    without brackets and without percent escapes above [%7F]. *)

Module UrllibRef.

(** [s.partition(c)]: the text before the first [c], and after it if there
    is one. *)
Fixpoint partition (c : ascii) (s : string) : string * option string :=
  match s with
  | EmptyString => (EmptyString, None)
  | String a s' =>
      if Ascii.eqb a c then (EmptyString, Some s')
      else let '(h, t) := partition c s' in (String a h, t)
  end.

Definition lower (a : ascii) : ascii :=
  let n := Ascii.nat_of_ascii a in
  if ((65 <=? n) && (n <=? 90))%nat then Ascii.ascii_of_nat (n + 32) else a.

Fixpoint map_chars (f : ascii -> ascii) (s : string) : string :=
  match s with
  | EmptyString => EmptyString
  | String a s' => String (f a) (map_chars f s')
  end.

Definition is_alpha (a : ascii) : bool :=
  let n := Ascii.nat_of_ascii a in
  ((65 <=? n) && (n <=? 90) || (97 <=? n) && (n <=? 122))%nat.

Definition is_digit (a : ascii) : bool :=
  let n := Ascii.nat_of_ascii a in ((48 <=? n) && (n <=? 57))%nat.

Definition is_scheme_char (a : ascii) : bool :=
  is_alpha a || is_digit a
  || Ascii.eqb a "+" || Ascii.eqb a "-" || Ascii.eqb a ".".

(** The network location ends before the first of [/], [?] and [#]. *)
Fixpoint split_netloc (s : string) : string * string :=
  match s with
  | EmptyString => (EmptyString, EmptyString)
  | String a s' =>
      if Ascii.eqb a "/" || Ascii.eqb a "?" || Ascii.eqb a "#"
      then (EmptyString, s)
      else let '(h, t) := split_netloc s' in (String a h, t)
  end.

Definition urlsplit (url : string) : Result SplitResult :=
  let '(scheme, url) :=
    match partition ":" url with
    | (String a rest as sch, Some after) =>
        if is_alpha a && all_chars is_scheme_char sch
        then (map_chars lower sch, after) else (EmptyString, url)
    | _ => (EmptyString, url)
    end in
  let '(netloc, url) :=
    if Str.startswith "//" url then split_netloc (Str.drop 2 url)
    else (EmptyString, url) in
  if Str.contains "[" netloc || Str.contains "]" netloc
  then Raise (ValueError "Invalid IPv6 URL")
  else
    let '(url, fragment) := partition "#" url in
    let '(url, query) := partition "?" url in
    Ok (mkSplitResult scheme netloc url (default "" query)
                      (default "" fragment)).

(** [rpartition] on the last [@], then [partition] on the first colon. *)
Definition hostname_of (netloc : string) : option string :=
  let hostinfo :=
    match Str.rfind "@" netloc with
    | Some i => Str.drop (S i) netloc
    | None => netloc
    end in
  let host := map_chars lower (partition ":" hostinfo).1 in
  if Str.truthy host then Some host else None.

(** [urlparse]: for the schemes that take parameters (among them [http]
    and [https]) the parameters after [;] in the last path segment are
    split off the path. *)
Definition uses_params (scheme : string) : bool :=
  bool_decide (scheme ∈ [""; "ftp"; "hdl"; "prospero"; "http"; "imap";
                         "https"; "shttp"; "rtsp"; "rtspu"; "sip"; "sips";
                         "mms"; "sftp"; "tel"]).

Definition strip_params (path : string) : string :=
  match Str.rfind "/" path with
  | Some i =>
      Str.take i path +:+ (partition ";" (Str.drop i path)).1
  | None => (partition ";" path).1
  end.

Definition urlparse (url : string) : Result ParseResult :=
  sp ← urlsplit url;
  let path :=
    if uses_params (sr_scheme sp) && Str.contains ";" (sr_path sp)
    then strip_params (sr_path sp) else sr_path sp in
  Ok (mkParseResult (hostname_of (sr_netloc sp)) path (sr_query sp)).

Definition hex_value (a : ascii) : option nat :=
  let n := Ascii.nat_of_ascii a in
  if ((48 <=? n) && (n <=? 57))%nat then Some (n - 48)
  else if ((65 <=? n) && (n <=? 70))%nat then Some (n - 55)
  else if ((97 <=? n) && (n <=? 102))%nat then Some (n - 87)
  else None.

Fixpoint unquote (s : string) : string :=
  match s with
  | String "%" (String a (String b rest) as s') =>
      match hex_value a, hex_value b with
      | Some x, Some y => String (Ascii.ascii_of_nat (16 * x + y)) (unquote rest)
      | _, _ => String "%" (unquote s')
      end
  | String a s' => String a (unquote s')
  | EmptyString => EmptyString
  end.

Definition unquote_plus (s : string) : string :=
  unquote (Str.replace "+" " " s).

Definition dict_append (k v : string) (d : dict (list string))
  : dict (list string) :=
  match dict_get k d with
  | Some vs => dict_set k (vs ++ [v]) d
  | None => d ++ [(k, [v])]
  end.

(** [parse_qs]: fields are separated by [&]; a field without [=] or with
    a blank value is skipped. *)
Definition parse_qs (qs : string) : dict (list string) :=
  List.fold_left
    (fun d name_value =>
       match partition "=" name_value with
       | (n, Some v) =>
           if Str.truthy v then dict_append (unquote_plus n) (unquote_plus v) d
           else d
       | (_, None) => d
       end)
    (Str.split "&" qs) [].

Definition hex_digit (n : nat) : ascii :=
  if (n <? 10)%nat then Ascii.ascii_of_nat (48 + n)
  else Ascii.ascii_of_nat (55 + n).

Definition is_safe (a : ascii) : bool :=
  is_alpha a || is_digit a
  || Ascii.eqb a "_" || Ascii.eqb a "." || Ascii.eqb a "-" || Ascii.eqb a "~".

Fixpoint quote_plus (s : string) : string :=
  match s with
  | EmptyString => EmptyString
  | String a s' =>
      if is_safe a then String a (quote_plus s')
      else if Ascii.eqb a " " then String "+" (quote_plus s')
      else let n := Ascii.nat_of_ascii a in
           String "%" (String (hex_digit (n / 16))
                              (String (hex_digit (n mod 16)) (quote_plus s')))
  end.

Definition urlencode (query : dict qvalue) : string :=
  Str.join "&"
    (List.concat
       (List.map
          (fun kv =>
             match kv.2 with
             | QStr v => [quote_plus kv.1 +:+ "=" +:+ quote_plus v]
             | QList vs =>
                 List.map (fun v => quote_plus kv.1 +:+ "=" +:+ quote_plus v) vs
             end) query)).

Definition uses_netloc (scheme : string) : bool :=
  bool_decide (scheme ∈ [""; "ftp"; "http"; "gopher"; "nntp"; "telnet";
                         "imap"; "wais"; "file"; "mms"; "https"; "shttp";
                         "snews"; "prospero"; "rtsp"; "rtspu"; "rsync";
                         "svn"; "svn+ssh"; "sftp"; "nfs"; "git"; "git+ssh";
                         "ws"; "wss"]).

Definition urlunsplit (c : SplitResult) : string :=
  let url := sr_path c in
  let url :=
    if Str.truthy (sr_netloc c)
       || (Str.truthy (sr_scheme c) && uses_netloc (sr_scheme c)
           && negb (Str.startswith "//" url))
    then "//" +:+ sr_netloc c
         +:+ (if Str.truthy url && negb (Str.startswith "/" url)
              then "/" +:+ url else url)
    else url in
  let url :=
    if Str.truthy (sr_scheme c) then sr_scheme c +:+ ":" +:+ url else url in
  let url :=
    if Str.truthy (sr_query c) then url +:+ "?" +:+ sr_query c else url in
  if Str.truthy (sr_fragment c) then url +:+ "#" +:+ sr_fragment c else url.

Definition lib : UrlLib :=
  mkUrlLib urlparse urlsplit parse_qs urlencode urlunsplit unquote.

End UrllibRef.

(** [bs4] on lines that hold no element whose [id] is [download-form]. *)
Definition no_form_html : HtmlLib := mkHtmlLib (fun _ => None).

(** A server that answers every URL but one with a five-byte body in two
    chunks, and an environment around it with the given faults. *)
Definition example_response : Response :=
  mkResponse
    (fun h => if String.eqb h "Content-Length" then Some "5" else None)
    ["he"; "llo"] None ["session=1"].

Definition example_env (fault : fs_op -> option exn) : SysEnv :=
  mkSysEnv (of_str "/home/user")
           (fun _ => Ok [])
           (fun cookies => Str.join "," cookies)
           (fun _ url _ =>
              if String.eqb url "https://example.com/missing"
              then Raise (HTTPError "404 Not Found")
              else Ok example_response)
           (fun s => Ok s)
           (fun _ => Ok 5%Z)
           "0.25"
           fault.

Definition no_fault : fs_op -> option exn := fun _ => None.



Definition empty_world : World := mkWorld ∅ [].


(** The same server when it sets no cookie, so that the client holds none,
    and one download from it. *)
Definition quiet_response : Response :=
  mkResponse
    (fun h => if String.eqb h "Content-Length" then Some "5" else None)
    ["he"; "llo"] None [].

Definition quiet_env (fault : fs_op -> option exn) : SysEnv :=
  mkSysEnv (of_str "/home/user")
           (fun _ => Ok [])
           (fun cookies => Str.join "," cookies)
           (fun _ url _ =>
              if String.eqb url "https://example.com/missing"
              then Raise (HTTPError "404 Not Found")
              else Ok quiet_response)
           (fun s => Ok s)
           (fun _ => Ok 5%Z)
           "0.25"
           fault.

Definition quiet_run (fault : fs_op -> option exn) (output : path_arg)
           (use_cookies : bool) : Result GdownRsp * World :=
  @download UrllibRef.lib (quiet_env fault) "https://example.com/data.bin"
            output None use_cookies true None empty_world.

(** Three URLs, of which the second cannot be retrieved. *)
Definition example_urls : list string :=
  ["https://example.com/a.bin"; "https://example.com/missing";
   "https://example.com/b.bin"].

(** Two schedules of the pool, to run the definitions on concrete inputs.
    In the first every call has been started before a result is read, and
    the calls run to their end one after the other, in input order. *)
Fixpoint run_in_turn (fn : string -> M GdownRsp) (urls : list string)
         (w : World) : list (future GdownRsp) * World :=
  match urls with
  | [] => ([], w)
  | u :: rest =>
      let '(r, w1) := fn u w in
      let '(fs, w2) := run_in_turn fn rest w1 in
      (match r with Ok a => Returned a | Raise e => Failed e end :: fs, w2)
  end.

(** In the second the calls run one after the other as well, and the pool
    has started none of the calls behind the first that fails when the
    result iterator cancels them. *)
Fixpoint run_until_failure (fn : string -> M GdownRsp) (urls : list string)
         (w : World) : list (future GdownRsp) * World :=
  match urls with
  | [] => ([], w)
  | u :: rest =>
      match fn u w with
      | (Ok a, w1) =>
          let '(fs, w2) := run_until_failure fn rest w1 in
          (Returned a :: fs, w2)
      | (Raise e, w1) =>
          (Failed e :: List.map (fun _ => Cancelled) rest, w1)
      end
  end.

Definition pool_of
           (run : (string -> M GdownRsp) -> list string -> World ->
                  list (future GdownRsp) * World) : Pool :=
  mkPool (fun fn urls w i => default Cancelled ((run fn urls w).1 !! i))
         (fun fn urls w => (run fn urls w).2).

Definition in_turn_pool : Pool := pool_of run_in_turn.
Definition cancelling_pool : Pool := pool_of run_until_failure.

(** An archive reader that opens every file as the given members and
    extracts without error. *)
Definition example_archives (names : list string) : ExtractAll.ArchiveEnv :=
  ExtractAll.mkArchiveEnv (fun _ _ _ => Ok names) (fun _ _ => Ok tt).

(** The line of the specification's scenario for the embedded JSON field,
    with the slashes escaped as the scenario writes them, and the same line
    with plain slashes.  [u003d] and [u0026] after a backslash are the
    escapes of [=] and [&]. *)
Definition escaped_downloadUrl_line : string :=
  dq +:+ "downloadUrl" +:+ dq +:+ ":" +:+ dq
  +:+ "https:" +:+ backslash +:+ "/" +:+ backslash +:+ "/host"
  +:+ backslash +:+ "/path" +:+ backslash +:+ "u003dX"
  +:+ backslash +:+ "u0026confirm" +:+ backslash +:+ "u003dY" +:+ dq.

Definition plain_downloadUrl_line : string :=
  dq +:+ "downloadUrl" +:+ dq +:+ ":" +:+ dq
  +:+ "https://host/path" +:+ backslash +:+ "u003dX"
  +:+ backslash +:+ "u0026confirm" +:+ backslash +:+ "u003dY" +:+ dq.

(** Lines of a confirmation page: a download link, an error caption, and
    an error caption followed by another paragraph. *)
Definition href_line : string :=
  "<a href=" +:+ dq +:+ "/uc?export=download&amp;id=X" +:+ dq +:+ ">x</a>".

Definition caption_line : string :=
  error_open_tag +:+ "Quota exceeded</p>".


(** [a + "\n" + b] *)
Definition two_lines (a b : string) : string :=
  a +:+ String newline b.

(** ** [gdown/helpers/utils.py] *)

Module Utils.

(** [str.isspace] on one character, among the code points below 256:
    TAB to CR, FS to US, the space, NEL and the no-break space. *)
Definition is_space (a : ascii) : bool :=
  let n := Ascii.nat_of_ascii a in
  ((9 <=? n) && (n <=? 13) || (28 <=? n) && (n <=? 32)
   || (n =? 133) || (n =? 160))%nat.

(** [s.lstrip()] *)
Fixpoint lstrip_space (s : string) : string :=
  match s with
  | String a s' => if is_space a then lstrip_space s' else s
  | EmptyString => EmptyString
  end.

(** [s.rstrip()] *)
Fixpoint rstrip_space (s : string) : string :=
  match s with
  | String a s' =>
      let r := rstrip_space s' in
      if is_space a && String.eqb r EmptyString then EmptyString
      else String a r
  | EmptyString => EmptyString
  end.

(** [s.strip()] *)
Definition strip (s : string) : string := rstrip_space (lstrip_space s).

(** [s.splitlines(True)]: the lines with their boundaries. *)
Fixpoint splitlines_keepends (s : string) : list string :=
  match s with
  | EmptyString => []
  | String a s' =>
      if Str.is_linebreak a then
        match s' with
        | String b s'' =>
            if Ascii.eqb a "013"%char && Ascii.eqb b "010"%char
            then String a (String b EmptyString) :: splitlines_keepends s''
            else String a EmptyString :: splitlines_keepends s'
        | EmptyString => [String a EmptyString]
        end
      else
        match splitlines_keepends s' with
        | h :: t => String a h :: t
        | [] => [String a EmptyString]
        end
  end.

(** [prefix + line if line.strip() else line] *)
Definition prefixed_line (prefix line : string) : string :=
  if Str.truthy (strip line) then prefix +:+ line else line.

(** [indent(text, prefix)] *)
Definition indent (text prefix : string) : string :=
  Str.join "" (List.map (prefixed_line prefix) (splitlines_keepends text)).

End Utils.

(** ** [gdown/downloader/factory.py]

    The registry is the class attribute [class_registry], a dictionary from
    type names to classes that is looked up by key only; it is threaded
    through the two class methods.  Classes and their instances are
    parameters.  [auto_import_classes] drives the import system and is not
    modelled. *)

(** The [type_names] argument of [register_class]: the documented list of
    names, or a single [str], whose iteration yields its characters. *)
Inductive type_names_arg : Type :=
  | NamesList (names : list string)
  | NamesStr (s : string).

(** [for type_name in type_names] *)
Definition iter_type_names (type_names : type_names_arg) : list string :=
  match type_names with
  | NamesList names => names
  | NamesStr s =>
      List.map (fun a => String a EmptyString) (list_ascii_of_string s)
  end.

Module DownloaderFactory.
Section DownloaderFactory.
Variables (class instance : Type).
(** [class_type(type_name=type_name)] *)
Variable instantiate : class -> string -> Result instance.

(** [register_class(type_names)(class_type)]: the registry after the
    decorator has run (the decorator returns [class_type] itself). *)
Definition register_class (type_names : type_names_arg) (class_type : class)
           (class_registry : gmap string class) : gmap string class :=
  List.fold_left (fun reg type_name => <[type_name := class_type]> reg)
                 (iter_type_names type_names) class_registry.

(** The message of [call_class] for a type that is not registered; the
    accented letters are held as their UTF-8 bytes. *)
Definition unsupported_type_message (type_name : string) : string :=
  "Type '" +:+ type_name +:+ "' không được hỗ trợ.".

(** [call_class(type_name)] *)
Definition call_class (class_registry : gmap string class)
           (type_name : string) : Result instance :=
  match class_registry !! type_name with
  | Some class_type => instantiate class_type type_name
  | None => Raise (ValueError (unsupported_type_message type_name))
  end.

End DownloaderFactory.
End DownloaderFactory.

(** ** Paths named by file-system events *)

(** The paths whose node an event may have changed. *)
Definition event_paths (ev : fs_event) : list Path :=
  match ev with
  | Opened p | Wrote p _ | Unlinked p | Saved p => [p]
  | Renamed src dst => [src; dst]
  end.

(** [b"".join(chunks)]: the body that the chunks make up. *)
Definition body_of (response : Response) : string :=
  Str.join "" (chunks response).

(** The files once a body streamed to [temp] has been renamed to [out]. *)
Definition after_publish (temp out : Path) (body : string)
           (fs : gmap Path node) : gmap Path node :=
  if bool_decide (temp = out) then <[temp := File body]> fs
  else <[out := File body]> (delete temp fs).

(** A response whose [Last-Modified] header is not a date, and an
    environment whose date parser rejects it. *)
Definition bad_date_response : Response :=
  mkResponse
    (fun h => if String.eqb h "Last-Modified" then Some "yesterday" else None)
    ["he"; "llo"] None [].

Definition bad_date_env : SysEnv :=
  mkSysEnv (of_str "/home/user")
           (fun _ => Ok [])
           (fun cookies => Str.join "," cookies)
           (fun _ _ _ => Ok bad_date_response)
           (fun s => Raise (ValueError ("Invalid date value or format " +:+ s)))
           (fun _ => Ok 5%Z)
           "0.25"
           no_fault.

(** An HTML parser that finds the given form on the lines that hold the
    attribute [id="download-form"] and no form on the others. *)
Definition form_html (f : form) : HtmlLib :=
  mkHtmlLib (fun line =>
    match re_search (Lit ("id=" +:+ dq +:+ "download-form" +:+ dq)) line with
    | Some _ => Some f
    | None => None
    end).

Definition form_line : string :=
  "<form id=" +:+ dq +:+ "download-form" +:+ dq +:+ ">".

(** A response that names the file in the [filename*] form, with escaped
    slashes; the header value is percent-decoded by [unquote]. *)
Definition traversal_response : Response :=
  mkResponse
    (fun h =>
       if String.eqb h "Content-Disposition"
       then Some "attachment; filename*=UTF-8''..%2F..%2Fetc%2Fpasswd"
       else None)
    ["x"] None [].

(** ** The outcomes of [download] *)

(** [user_agent] after [if not user_agent: user_agent = USER_AGENT]. *)
Definition user_agent_or_default (user_agent : option string) : string :=
  match user_agent with
  | Some ua => if Str.truthy ua then ua else USER_AGENT
  | None => USER_AGENT
  end.

(** The message of the error that the handler of the second [try] block
    raises for the exception [e]. *)
Definition download_failed (e : exn) : exn :=
  FileURLRetrievalError ("Download failed due to " +:+ exn_str e).

(** What the second [try] block of [download] returns and leaves behind,
    from the world [w], once [temp_file] is assigned. *)
Inductive transfer_outcome (env : SysEnv) (url : string) (use_cookies : bool)
          (response : Response) (lm : option string) (out temp : Path)
          (w : World) : Result GdownRsp -> World -> Prop :=
  | Published :
      stream_error response = None ->
      (use_cookies = true -> client_cookies response = []) ->
      transfer_outcome env url use_cookies response lm out temp w
        (Ok (mkGdownRsp url (str out) lm (total_time env)))
        (mkWorld
           (if use_cookies
            then <[cookies_path env := File (cookiejar_dump env [])]>
                   (after_publish temp out (body_of response) (files w))
            else after_publish temp out (body_of response) (files w))
           (trace w ++ Opened temp
              :: List.map (Wrote temp) (chunks response)
              ++ Renamed temp out
              :: (if use_cookies
                  then [Saved (cookies_path env)]
                  else [])))
  | NotOpened e :
      files w !! temp = None ->
      transfer_outcome env url use_cookies response lm out temp w
        (Raise (download_failed e)) w
  | NotOpenedRemoved e c :
      files w !! temp = Some (File c) ->
      transfer_outcome env url use_cookies response lm out temp w
        (Raise (download_failed e))
        (mkWorld (delete temp (files w)) (trace w ++ [Unlinked temp]))
  | NotOpenedDirectory :
      files w !! temp = Some Dir ->
      transfer_outcome env url use_cookies response lm out temp w
        (Raise (IsADirectoryError (str temp))) w
  | Interrupted e wrotes :
      Forall (fun ev => exists chunk, ev = Wrote temp chunk) wrotes ->
      transfer_outcome env url use_cookies response lm out temp w
        (Raise (download_failed e))
        (mkWorld (delete temp (files w))
                 (trace w ++ Opened temp :: wrotes ++ [Unlinked temp]))
  | CookieStepFailed e :
      use_cookies = true ->
      transfer_outcome env url use_cookies response lm out temp w
        (Raise (download_failed e))
        (mkWorld
           (if bool_decide (temp = out) then delete temp (files w)
            else <[out := File (body_of response)]> (delete temp (files w)))
           (trace w ++ Opened temp
              :: List.map (Wrote temp) (chunks response)
              ++ Renamed temp out
              :: (if bool_decide (temp = out) then [Unlinked temp] else []))).

(** An environment whose cookie file cannot be read, and a file system
    that holds such a file. *)
Definition bad_cookies_env : SysEnv :=
  mkSysEnv (of_str "/home/user")
           (fun _ => Raise (OSError "does not look like a Netscape format cookies file"))
           (fun cookies => Str.join "," cookies)
           (fun _ _ _ => Ok example_response)
           (fun s => Ok s)
           (fun _ => Ok 5%Z)
           "0.25"
           no_fault.

Definition bad_cookies_world : World :=
  mkWorld {[ of_str "/home/user/.cache/gdown/cookies.txt" := File "garbage" ]} [].



(** A class that is instantiated without error: the instance records the
    class and the type name it was asked for. *)
Definition example_instantiate (class_type type_name : string)
  : Result (string * string) :=
  Ok (class_type, type_name).

(** * Facts about strings *)

Section StrFacts.
Implicit Types s t u : string.

Lemma str_app_nil_l s : "" +:+ s = s.
Proof. reflexivity. Qed.

Lemma str_app_cons a s t : String a s +:+ t = String a (s +:+ t).
Proof. reflexivity. Qed.

Lemma str_app_nil_r s : s +:+ "" = s.
Proof. induction s as [|a s IH]; [done|]. by rewrite str_app_cons, IH. Qed.

Lemma str_app_assoc s t u : (s +:+ t) +:+ u = s +:+ (t +:+ u).
Proof. induction s as [|a s IH]; [done|]. by rewrite !str_app_cons, IH. Qed.

Lemma str_len_cons a s : Str.len (String a s) = S (Str.len s).
Proof. reflexivity. Qed.

Lemma str_len_app s t : Str.len (s +:+ t) = Str.len s + Str.len t.
Proof.
  induction s as [|a s IH]; [done|].
  by rewrite str_app_cons, !str_len_cons, IH.
Qed.

Lemma str_app_inv_tail s1 s2 t : s1 +:+ t = s2 +:+ t -> s1 = s2.
Proof.
  revert s2. induction s1 as [|a s1 IH]; intros [|b s2] E.
  - done.
  - apply (f_equal Str.len) in E. rewrite !str_len_app, str_len_cons in E.
    change (Str.len "") with 0 in E. lia.
  - apply (f_equal Str.len) in E. rewrite !str_len_app, str_len_cons in E.
    change (Str.len "") with 0 in E. lia.
  - rewrite !str_app_cons in E. injection E as -> E. f_equal. by apply IH.
Qed.

Lemma str_take_drop n s : Str.take n s +:+ Str.drop n s = s.
Proof.
  revert s. induction n as [|n IH]; intros [|a s]; simpl; try done.
  by rewrite str_app_cons, IH.
Qed.

Lemma str_len_drop n s : Str.len (Str.drop n s) = Str.len s - n.
Proof.
  revert s. induction n as [|n IH]; intros [|a s]; simpl; try done.
Qed.

Lemma truthy_false s : Str.truthy s = false -> s = "".
Proof.
  unfold Str.truthy. intros E. apply negb_false_iff in E.
  by apply String.eqb_eq.
Qed.

Lemma truthy_true s : Str.truthy s = true -> s <> "".
Proof.
  unfold Str.truthy. intros E. apply negb_true_iff in E.
  by apply String.eqb_neq.
Qed.

Lemma rfind_lt c s i : Str.rfind c s = Some i -> i < Str.len s.
Proof.
  revert i. induction s as [|a s IH]; intros i; cbn [Str.rfind]; [done|].
  destruct (Str.rfind c s) as [j|].
  - intros [= <-]. specialize (IH j eq_refl). rewrite str_len_cons. lia.
  - destruct (Ascii.eqb a c); [|done]. intros [= <-]. rewrite str_len_cons. lia.
Qed.

End StrFacts.

(** * Facts about paths *)

Section PathFacts.
Implicit Types p q t : Path.

Lemma str_drop_len s : Str.drop (Str.len s) s = "".
Proof. induction s; simpl; auto. Qed.

Lemma str_take_len s : Str.take (Str.len s) s = s.
Proof. induction s as [|a s IH]; simpl; [done|]. by rewrite IH. Qed.

Lemma stem_suffix nm : stem_of_name nm +:+ suffix_of_name nm = nm.
Proof.
  unfold stem_of_name, suffix_of_name.
  destruct (Str.rfind "." nm) as [i|]; [|apply str_app_nil_r].
  destruct (_ && _); [apply str_take_drop|apply str_app_nil_r].
Qed.

(** The name that [with_suffix] builds is the stem followed by the new
    suffix. *)
Lemma with_suffix_name_stem nm :
  (if negb (Str.truthy (suffix_of_name nm)) then nm
   else Str.take (Str.len nm - Str.len (suffix_of_name nm)) nm)
  = stem_of_name nm.
Proof.
  unfold stem_of_name, suffix_of_name.
  destruct (Str.rfind "." nm) as [i|] eqn:E; [|done].
  apply rfind_lt in E.
  destruct (_ && _) eqn:C; [|done].
  destruct (Str.truthy (Str.drop i nm)) eqn:T; simpl.
  - rewrite str_len_drop. f_equal. lia.
  - apply truthy_false in T. apply (f_equal Str.len) in T.
    rewrite str_len_drop in T. change (Str.len "") with 0 in T. lia.
Qed.

Lemma with_suffix_ok p t :
  with_suffix p ".part" = Ok t ->
  name p <> ""
  /\ t = mkPath (root p) (removelast (parts p) ++ [stem p +:+ ".part"]).
Proof.
  unfold with_suffix. cbn [Str.contains Ascii.eqb Bool.eqb orb].
  change (Str.truthy ".part" && negb (Str.startswith "." ".part")
          || (".part" =? ".")%string) with false. cbv iota.
  destruct (Str.truthy (name p)) eqn:T; simpl; [|done].
  intros [= <-]. split; [by apply truthy_true|].
  unfold stem. rewrite <- with_suffix_name_stem. unfold suffix.
  by destruct (Str.truthy (suffix_of_name (name p))).
Qed.

Lemma name_parts p :
  name p <> "" -> parts p = removelast (parts p) ++ [name p].
Proof.
  unfold name. destruct p as [r ps]; simpl.
  intros Hn. destruct ps as [|x ps]; [done|].
  apply app_removelast_last. done.
Qed.

End PathFacts.

(** * The temporary path of a download *)

(** C5, as claimed, fails: two final paths that differ only in their last
    suffix have the same temporary path. *)
Lemma temp_path_collision :
  of_str "a.txt" <> of_str "a.zip"
  /\ temp_path (of_str "a.txt") = Ok (of_str "a.part")
  /\ temp_path (of_str "a.zip") = Ok (of_str "a.part").
Proof. split; [|split]; [discriminate|reflexivity|reflexivity]. Qed.

(** C5 (amended): the temporary path is the final path with its last
    suffix replaced by [.part]; final paths that carry the same last suffix
    and have the same temporary path are the same path. *)
Theorem temp_path_injective_same_suffix (p q t : Path) :
  temp_path p = Ok t -> temp_path q = Ok t -> suffix p = suffix q -> p = q.
Proof.
  unfold temp_path. intros Hp Hq Hs.
  apply with_suffix_ok in Hp as [Np ->].
  apply with_suffix_ok in Hq as [Nq [= Hr Hparts]].
  apply app_inj_tail in Hparts as [Hinit Hstem].
  apply str_app_inv_tail in Hstem.
  assert (name p = name q) as Hname.
  { rewrite <- (stem_suffix (name p)), <- (stem_suffix (name q)).
    unfold stem in Hstem. unfold suffix in Hs. by rewrite Hstem, Hs. }
  pose proof (name_parts p Np) as Ep.
  pose proof (name_parts q Nq) as Eq.
  rewrite Hinit, Hname, <- Eq in Ep.
  destruct p, q; simpl in *; congruence.
Qed.

Lemma temp_path_injective_same_suffix_witness :
  temp_path (of_str "data/a.txt") = Ok (of_str "data/a.part")
  /\ of_str "data/a.txt" = of_str "data//a.txt".
Proof.
  split; [reflexivity|].
  apply (temp_path_injective_same_suffix _ _ (of_str "data/a.part"));
    reflexivity.
Defined.

(** * The archive extractor *)

Import ExtractAll.

(** A list is never found among tuples. *)
Lemma list_not_in_tuples (l a b : list string) :
  py_in (PyList l) [PyTuple a; PyTuple b] = false.
Proof. reflexivity. Qed.

(** The opener is selected by the last suffix alone: the two branches on
    [path.suffixes] are never taken. *)
Lemma select_opener_cases (path : Path) :
  select_opener path =
    if String.eqb (suffix path) ".zip" then Ok (zipfile_ZipFile, "r")
    else if String.eqb (suffix path) ".tar" then Ok (tarfile_open, "r")
    else Raise (ValueError ("Could not extract '" +:+ str path +:+
                            "' as no appropriate extractor is found")).
Proof. unfold select_opener. by rewrite !list_not_in_tuples. Qed.

(** C3: on the compressed tar suffixes that the extractor lists, the code
    selects no opener and raises the unsupported-format error; no archive
    is opened and nothing is extracted. *)
Theorem extract_all_rejects_compressed_tar (env : ArchiveEnv)
        (to : option string) :
  Forall (fun path =>
            extract_all env path to =
              (Raise (ValueError ("Could not extract '" +:+ path +:+
                                  "' as no appropriate extractor is found")),
               []))
         ["data.tar.gz"; "data.tgz"; "data.tar.bz2"; "data.tbz"].
Proof. repeat constructor. Qed.

(** A zip archive: the member names joined to the target directory. *)
Lemma extract_all_zip (env : ArchiveEnv) (path : string) (to : option string)
      (names : list string) :
  suffix (of_str path) = ".zip" ->
  open_archive env zipfile_ZipFile (of_str path) "r" = Ok names ->
  extractall env (of_str path) (target_dir (of_str path) to) = Ok tt ->
  extract_all env path to =
    (Ok (List.map (fun fname => str (joinpath (target_dir (of_str path) to) fname))
                  names),
     [Extracted (of_str path) (target_dir (of_str path) to)]).
Proof.
  intros Hs Ho He. unfold extract_all.
  rewrite select_opener_cases, Hs. simpl. by rewrite Ho, He.
Qed.

(** Without a target (or with an empty one) the target is the parent. *)
Lemma target_dir_default (path : Path) :
  target_dir path None = parent path /\ target_dir path (Some "") = parent path.
Proof. done. Qed.

(** C10: on a plain tar archive the members are extracted to the target
    directory, then the member list is read from the archive that the [with]
    block has closed: the call raises and returns no list. *)
Theorem extract_all_tar_raises_after_extraction (env : ArchiveEnv)
        (path : string) (to : option string) (names : list string) :
  suffix (of_str path) = ".tar" ->
  open_archive env tarfile_open (of_str path) "r" = Ok names ->
  extractall env (of_str path) (target_dir (of_str path) to) = Ok tt ->
  extract_all env path to =
    (Raise (OSError "TarFile is closed"),
     [Extracted (of_str path) (target_dir (of_str path) to)]).
Proof.
  intros Hs Ho He. unfold extract_all.
  rewrite select_opener_cases, Hs. simpl. by rewrite Ho, He.
Qed.

Lemma extract_all_tar_raises_after_extraction_witness :
  extract_all (example_archives ["a.txt"; "b/c.txt"]) "backup/data.tar" None =
    (Raise (OSError "TarFile is closed"),
     [Extracted (of_str "backup/data.tar") (of_str "backup")]).
Proof.
  apply (extract_all_tar_raises_after_extraction
           (example_archives ["a.txt"; "b/c.txt"]) "backup/data.tar" None
           ["a.txt"; "b/c.txt"]); reflexivity.
Defined.

(** * Facts about the matcher *)

Section ReFacts.
Implicit Types (s t w : string) (k : cont) (caps : captures).

Lemma startswith_app w s : Str.startswith w (w +:+ s) = true.
Proof.
  induction w as [|a w IH]; [done|].
  rewrite str_app_cons. cbn [Str.startswith].
  by rewrite Ascii.eqb_refl, IH.
Qed.

Lemma str_drop_app w s : Str.drop (Str.len w) (w +:+ s) = s.
Proof. induction w as [|a w IH]; [done|]. by rewrite str_app_cons. Qed.

Lemma str_take_app w s : Str.take (Str.len w) (w +:+ s) = w.
Proof.
  induction w as [|a w IH]; [by destruct s|].
  rewrite str_app_cons, str_len_cons. cbn [Str.take]. by rewrite IH.
Qed.

Lemma startswith_inv w s :
  Str.startswith w s = true -> s = w +:+ Str.drop (Str.len w) s.
Proof.
  revert s. induction w as [|a w IH]; intros [|b s]; cbn [Str.startswith];
    try done.
  intros [Hab Hw]%andb_true_iff. apply Ascii.eqb_eq in Hab as ->.
  rewrite str_app_cons, str_len_cons. cbn [Str.drop]. f_equal. by apply IH.
Qed.

Lemma rmatch_Lit w pos s caps k :
  rmatch (Lit w) pos (w +:+ s) caps k = k (pos + Str.len w) s caps.
Proof. cbn [rmatch]. by rewrite startswith_app, str_drop_app. Qed.

Lemma rmatch_Cat r1 r2 pos s caps k :
  rmatch (Cat r1 r2) pos s caps k =
    rmatch r1 pos s caps (fun pos' s' caps' => rmatch r2 pos' s' caps' k).
Proof. reflexivity. Qed.

Lemma rmatch_Alt r1 r2 pos s caps k :
  rmatch (Alt r1 r2) pos s caps k =
    orelse (rmatch r1 pos s caps k) (rmatch r2 pos s caps k).
Proof. reflexivity. Qed.

Lemma rmatch_Group n r pos s caps k :
  rmatch (Group n r) pos s caps k =
    rmatch r pos s caps (fun pos' s' caps' =>
      k pos' s' ((n, Str.take (Str.len s - Str.len s') s) :: caps')).
Proof. reflexivity. Qed.

Lemma rmatch_Star r pos s caps k :
  rmatch (Star r) pos s caps k =
    greedy_loop (rmatch r) k (Str.len s) pos s caps.
Proof. reflexivity. Qed.

Lemma rmatch_LazyStar r pos s caps k :
  rmatch (LazyStar r) pos s caps k =
    lazy_loop (rmatch r) k (Str.len s) pos s caps.
Proof. reflexivity. Qed.

Lemma rmatch_Bol s caps k : rmatch Bol 0 s caps k = k 0 s caps.
Proof. reflexivity. Qed.

Lemma rmatch_Lit_mismatch w pos s caps k :
  Str.startswith w s = false -> rmatch (Lit w) pos s caps k = None.
Proof. intros E. cbn [rmatch]. by rewrite E. Qed.

Lemma rmatch_Cls_cons c a s pos caps k :
  rmatch (Cls c) pos (String a s) caps k =
    if cls_mem c a then k (S pos) s caps else None.
Proof. reflexivity. Qed.

Lemma rmatch_Cls_nil c pos caps k : rmatch (Cls c) pos "" caps k = None.
Proof. reflexivity. Qed.

Lemma ltb_succ pos : (pos <? S pos) = true.
Proof. apply Nat.ltb_lt. lia. Qed.

(** A greedy star of a character class takes the whole run when the
    continuation accepts what follows it. *)
Lemma greedy_loop_run c k v ds : forall fuel pos s caps,
  all_chars (cls_mem c) ds = true ->
  match s with String a _ => cls_mem c a = false | EmptyString => True end ->
  Str.len ds <= fuel ->
  k (pos + Str.len ds) s caps = Some v ->
  greedy_loop (rmatch (Cls c)) k fuel pos (ds +:+ s) caps = Some v.
Proof.
  induction ds as [|d ds IH]; intros fuel pos s caps Hds Hs Hfuel Hk.
  - change (Str.len "") with 0 in Hk. rewrite Nat.add_0_r in Hk.
    rewrite str_app_nil_l. destruct fuel as [|fuel]; cbn [greedy_loop]; [done|].
    destruct s as [|a s'].
    + by rewrite rmatch_Cls_nil, Hk.
    + by rewrite rmatch_Cls_cons, Hs, Hk.
  - cbn [all_chars] in Hds. apply andb_true_iff in Hds as [Hd Hds].
    rewrite str_len_cons in Hfuel, Hk.
    destruct fuel as [|fuel]; [lia|].
    rewrite str_app_cons. cbn [greedy_loop].
    rewrite rmatch_Cls_cons, Hd, ltb_succ.
    rewrite (IH fuel (S pos) s caps); try done; [lia|].
    by replace (S pos + Str.len ds) with (pos + S (Str.len ds)) by lia.
Qed.

Lemma rmatch_Plus_run c k v d ds pos s caps :
  all_chars (cls_mem c) (String d ds) = true ->
  match s with String a _ => cls_mem c a = false | EmptyString => True end ->
  k (pos + Str.len (String d ds)) s caps = Some v ->
  rmatch (Plus (Cls c)) pos (String d ds +:+ s) caps k = Some v.
Proof.
  intros Hds Hs Hk. cbn [all_chars] in Hds.
  apply andb_true_iff in Hds as [Hd Hds].
  unfold Plus. rewrite str_app_cons.
  rewrite rmatch_Cat, rmatch_Cls_cons, Hd, rmatch_Star.
  apply greedy_loop_run; try done.
  - rewrite str_len_app. lia.
  - rewrite str_len_cons in Hk.
    by replace (S pos + Str.len ds) with (pos + S (Str.len ds)) by lia.
Qed.

(** A lazy star of the dot stops at the first point where the
    continuation accepts. *)
Lemma lazy_loop_first k v u : forall fuel pos s caps,
  no_newline u = true ->
  (forall a b, u = a +:+ b -> b <> "" ->
               k (pos + Str.len a) (b +:+ s) caps = None) ->
  Str.len u <= fuel ->
  k (pos + Str.len u) s caps = Some v ->
  lazy_loop (rmatch (Cls Any)) k fuel pos (u +:+ s) caps = Some v.
Proof.
  induction u as [|c u IH]; intros fuel pos s caps Hu Hfail Hfuel Hk.
  - change (Str.len "") with 0 in Hk. rewrite Nat.add_0_r in Hk.
    rewrite str_app_nil_l. destruct fuel; cbn [lazy_loop]; by rewrite Hk.
  - cbn [no_newline all_chars] in Hu. apply andb_true_iff in Hu as [Hc Hu].
    rewrite str_len_cons in Hfuel, Hk.
    destruct fuel as [|fuel]; [lia|].
    cbn [lazy_loop].
    pose proof (Hfail "" (String c u) eq_refl) as H0.
    change (Str.len "") with 0 in H0. rewrite Nat.add_0_r in H0.
    rewrite H0 by done. cbn [orelse].
    rewrite str_app_cons, rmatch_Cls_cons. cbn [cls_mem]. rewrite Hc, ltb_succ.
    apply IH; try done; [|lia|].
    + intros a b -> Hb.
      specialize (Hfail (String c a) b eq_refl Hb).
      rewrite str_len_cons in Hfail.
      by replace (S pos + Str.len a) with (pos + S (Str.len a)) by lia.
    + by replace (S pos + Str.len u) with (pos + S (Str.len u)) by lia.
Qed.

End ReFacts.

(** * The pattern table *)

Lemma PARSING_PATTERNS_shapes :
  PARSING_PATTERNS =
    [ plain_pattern "/file/d/" edit_view;
      account_pattern "/file/u/" edit_view;
      plain_pattern "/document/d/" edit_htmlview_view;
      account_pattern "/document/u/" edit_htmlview_view;
      plain_pattern "/presentation/d/" edit_htmlview_view;
      account_pattern "/presentation/u/" edit_htmlview_view;
      plain_pattern "/spreadsheets/d/" edit_htmlview_view;
      account_pattern "/spreadsheets/u/" edit_htmlview_view ].
Proof. reflexivity. Qed.

Section Endings.
Implicit Types (s t b : string) (k : cont) (caps : captures).

Lemma rmatch_Lit_inv w pos s caps k v :
  rmatch (Lit w) pos s caps k = Some v ->
  exists s', s = w +:+ s' /\ k (pos + Str.len w) s' caps = Some v.
Proof.
  cbn [rmatch]. destruct (Str.startswith w s) eqn:E; [|done].
  intros Hk. exists (Str.drop (Str.len w) s). split; [|done].
  by apply startswith_inv.
Qed.

Lemma orelse_inv {A} (x y : option A) v :
  orelse x y = Some v -> x = Some v \/ y = Some v.
Proof. destruct x; simpl; auto. Qed.

Lemma rmatch_Eol_inv pos s caps k v :
  rmatch Eol pos s caps k = Some v ->
  (s = "" \/ s = String newline "") /\ k pos s caps = Some v.
Proof.
  cbn [rmatch]. destruct (_ || _) eqn:E; [|done].
  apply orb_true_iff in E as [E|E]; apply String.eqb_eq in E; auto.
Qed.

(** What the end of a pattern, from the slash after the identifier,
    accepts. *)
Lemma ending_inv kd pos s caps v :
  rmatch (Seq [Lit "/"; Group 2 (endings_regex kd); Eol]) pos s caps accept
    = Some v ->
  exists x e, In x (table_endings kd) /\ (e = "" \/ e = String newline "")
              /\ s = "/" +:+ x +:+ e.
Proof.
  cbn [Seq]. rewrite rmatch_Cat.
  intros (s1 & -> & H)%rmatch_Lit_inv.
  rewrite rmatch_Cat, rmatch_Group in H.
  destruct kd; unfold endings_regex, edit_view, edit_htmlview_view in H;
    repeat (rewrite rmatch_Alt in H; apply orelse_inv in H as [H|H]);
    apply rmatch_Lit_inv in H as (e & -> & [He _]%rmatch_Eol_inv);
    eexists _, e; (split; [|split; [exact He|reflexivity]]);
    cbn; auto.
Qed.

Ltac peel b E :=
  repeat (destruct b as [|? b];
          [ try done; try discriminate E
          | rewrite str_app_cons in E;
            first [discriminate E | injection E as -> E] ]).

(** Nothing but the ending itself, after the slash, is accepted. *)
Lemma ending_only_at_end kd b ending pos caps :
  b <> "" -> In ending (table_endings kd) ->
  rmatch (Seq [Lit "/"; Group 2 (endings_regex kd); Eol]) pos
         (b +:+ "/" +:+ ending) caps accept = None.
Proof.
  intros Hb Hin.
  destruct (rmatch _ _ _ _ _) as [v|] eqn:E; [|done]. exfalso.
  apply ending_inv in E as (x & e & Hx & He & E).
  destruct kd; cbn in Hin, Hx;
    intuition subst; peel b E.
Qed.

Lemma ending_accepts kd ending pos caps :
  In ending (table_endings kd) ->
  rmatch (Seq [Lit "/"; Group 2 (endings_regex kd); Eol]) pos
         ("/" +:+ ending) caps accept = Some ((2, ending) :: caps).
Proof.
  intros Hin.
  destruct kd; cbn in Hin; intuition subst; reflexivity.
Qed.

End Endings.

Section Shapes.
Implicit Types (s t id ds ending : string) (kd : doc_kind).

Lemma id_and_ending_match kd id ending pos caps :
  no_newline id = true -> In ending (table_endings kd) ->
  rmatch (id_and_ending (endings_regex kd)) pos (id +:+ "/" +:+ ending)
         caps accept
  = Some ((2, ending) :: (1, id) :: caps).
Proof.
  intros Hid Hin. unfold id_and_ending. cbn [Seq].
  rewrite rmatch_Cat, rmatch_Group, rmatch_LazyStar.
  apply lazy_loop_first; try done.
  - intros a b _ Hb. by apply (ending_only_at_end kd).
  - rewrite str_len_app. lia.
  - rewrite (ending_accepts kd) by done.
    rewrite str_len_app, Nat.add_sub, str_take_app. done.
Qed.

Lemma plain_pattern_match kd prefix id ending :
  no_newline id = true -> In ending (table_endings kd) ->
  re_match (plain_pattern prefix (endings_regex kd))
           (prefix +:+ id +:+ "/" +:+ ending)
  = Some [(2, ending); (1, id)].
Proof.
  intros Hid Hin. unfold re_match, plain_pattern.
  rewrite rmatch_Cat, rmatch_Bol, rmatch_Cat, rmatch_Lit.
  by apply id_and_ending_match.
Qed.

Lemma account_pattern_match kd prefix ds id ending :
  is_account ds = true ->
  no_newline id = true -> In ending (table_endings kd) ->
  re_match (account_pattern prefix (endings_regex kd))
           (prefix +:+ ds +:+ "/d/" +:+ id +:+ "/" +:+ ending)
  = Some [(2, ending); (1, id)].
Proof.
  intros [Hne Hds]%andb_true_iff Hid Hin. unfold re_match, account_pattern.
  rewrite rmatch_Cat, rmatch_Bol, rmatch_Cat, rmatch_Lit, rmatch_Cat.
  destruct ds as [|d ds]; [done|].
  unfold digits. apply rmatch_Plus_run; try done.
  rewrite rmatch_Cat, rmatch_Lit. by apply id_and_ending_match.
Qed.

Lemma plain_pattern_mismatch prefix endings path :
  Str.startswith prefix path = false ->
  re_match (plain_pattern prefix endings) path = None.
Proof.
  intros E. unfold re_match, plain_pattern.
  by rewrite rmatch_Cat, rmatch_Bol, rmatch_Cat, rmatch_Lit_mismatch.
Qed.

Lemma account_pattern_mismatch prefix endings path :
  Str.startswith prefix path = false ->
  re_match (account_pattern prefix endings) path = None.
Proof.
  intros E. unfold re_match, account_pattern.
  by rewrite rmatch_Cat, rmatch_Bol, rmatch_Cat, rmatch_Lit_mismatch.
Qed.

Lemma shape_path_plain kd id ending :
  shape_path kd None id ending
  = ("/" +:+ kind_name kd +:+ "/d/") +:+ id +:+ "/" +:+ ending.
Proof. unfold shape_path. by rewrite !str_app_assoc. Qed.

Lemma shape_path_account kd ds id ending :
  shape_path kd (Some ds) id ending
  = ("/" +:+ kind_name kd +:+ "/u/") +:+ ds +:+ "/d/" +:+ id +:+ "/" +:+ ending.
Proof. unfold shape_path. by rewrite !str_app_assoc. Qed.

(** Every path of a shape in the table gives back its identifier. *)
Lemma match_patterns_shape kd account id ending :
  In ending (table_endings kd) ->
  no_newline id = true ->
  match account with Some ds => is_account ds = true | None => True end ->
  match_patterns PARSING_PATTERNS (shape_path kd account id ending) None
  = Some id.
Proof.
  intros Hin Hid Hacc. rewrite PARSING_PATTERNS_shapes.
  destruct account as [ds|].
  - destruct kd; cbn [match_patterns];
      repeat (first [ rewrite plain_pattern_mismatch by reflexivity
                    | rewrite account_pattern_mismatch by reflexivity ]);
      rewrite shape_path_account;
      first [ rewrite (account_pattern_match KFile) by done
            | rewrite (account_pattern_match KDocument) by done ];
      reflexivity.
  - destruct kd; cbn [match_patterns];
      repeat (first [ rewrite plain_pattern_mismatch by reflexivity
                    | rewrite account_pattern_mismatch by reflexivity ]);
      rewrite shape_path_plain;
      first [ rewrite (plain_pattern_match KFile) by done
            | rewrite (plain_pattern_match KDocument) by done ];
      reflexivity.
Qed.

End Shapes.

(** * The identifier resolver *)

Section ParseUrlFacts.
Context `{UrlLib}.
Implicit Types (url : string) (parsed : ParseResult).

(** On a provider URL [parse_url] returns: the identifier is read from
    the query when it has an [id] field and from the path otherwise. *)
Lemma parse_url_with_provider patterns url warning parsed :
  urlparse url = Ok parsed ->
  pr_hostname parsed ∈ [Some "drive.google.com"; Some "docs.google.com"] ->
  exists warnings,
    parse_url_with patterns url warning =
      Ok (if dict_mem "id" (parse_qs (pr_query parsed))
          then match dict_get "id" (parse_qs (pr_query parsed)) with
               | Some [file_id] => Some file_id
               | _ => None
               end
          else match_patterns patterns (pr_path parsed) None,
          Str.endswith "/uc" (pr_path parsed), warnings).
Proof.
  intros Hp Hh. unfold parse_url_with, is_google_drive_url.
  rewrite Hp. cbn [mbind Result_bind].
  rewrite bool_decide_eq_true_2 by done. cbn [negb].
  eexists. reflexivity.
Qed.

(** C7: on a provider URL whose query has an [id] field with exactly one
    value, the identifier is that value. *)
Theorem parse_url_single_id url warning parsed v :
  urlparse url = Ok parsed ->
  pr_hostname parsed ∈ [Some "drive.google.com"; Some "docs.google.com"] ->
  dict_get "id" (parse_qs (pr_query parsed)) = Some [v] ->
  exists warnings,
    parse_url url warning =
      Ok (Some v, Str.endswith "/uc" (pr_path parsed), warnings).
Proof.
  intros Hp Hh Hid.
  destruct (parse_url_with_provider PARSING_PATTERNS url warning parsed Hp Hh)
    as [ws E].
  exists ws. unfold parse_url. rewrite E. unfold dict_mem. by rewrite Hid.
Qed.

(** C9: on a provider URL whose query has an [id] field with several
    values the identifier is [None]; and whenever the query has an [id]
    field the result is the same for every pattern table. *)
Theorem parse_url_id_overrides_patterns url warning parsed vs :
  urlparse url = Ok parsed ->
  pr_hostname parsed ∈ [Some "drive.google.com"; Some "docs.google.com"] ->
  dict_get "id" (parse_qs (pr_query parsed)) = Some vs ->
  (1 < length vs ->
   exists warnings,
     parse_url url warning =
       Ok (None, Str.endswith "/uc" (pr_path parsed), warnings))
  /\ (forall patterns,
        parse_url_with patterns url warning = parse_url url warning).
Proof.
  intros Hp Hh Hid. split.
  - intros Hlen.
    destruct (parse_url_with_provider PARSING_PATTERNS url warning parsed Hp Hh)
      as [ws E].
    exists ws. unfold parse_url. rewrite E. unfold dict_mem. rewrite Hid.
    destruct vs as [|v1 [|v2 vs]]; simpl in Hlen; [lia|lia|done].
  - intros patterns. unfold parse_url, parse_url_with, is_google_drive_url.
    rewrite Hp. cbn [mbind Result_bind].
    rewrite bool_decide_eq_true_2 by done. cbn [negb].
    unfold dict_mem. by rewrite Hid.
Qed.

(** C8 (amended): on a provider URL without [id] field whose path has a
    shape of the table, the identifier is the one in the path. *)
Theorem parse_url_table_shape url warning parsed kd account id ending :
  urlparse url = Ok parsed ->
  pr_hostname parsed ∈ [Some "drive.google.com"; Some "docs.google.com"] ->
  dict_mem "id" (parse_qs (pr_query parsed)) = false ->
  pr_path parsed = shape_path kd account id ending ->
  In ending (table_endings kd) ->
  match account with Some ds => is_account ds = true | None => True end ->
  no_newline id = true ->
  exists warnings,
    parse_url url warning =
      Ok (Some id, Str.endswith "/uc" (pr_path parsed), warnings).
Proof.
  intros Hp Hh Hq Hpath Hin Hacc Hid.
  destruct (parse_url_with_provider PARSING_PATTERNS url warning parsed Hp Hh)
    as [ws E].
  exists ws. unfold parse_url. rewrite E, Hq, Hpath.
  by rewrite match_patterns_shape.
Qed.

End ParseUrlFacts.

Lemma parse_url_single_id_witness :
  exists warnings,
    @parse_url UrllibRef.lib "https://drive.google.com/uc?id=1AbC_x-9&export=download" true
    = Ok (Some "1AbC_x-9", true, warnings).
Proof.
  apply (@parse_url_single_id UrllibRef.lib
           "https://drive.google.com/uc?id=1AbC_x-9&export=download" true
           (mkParseResult (Some "drive.google.com") "/uc"
                          "id=1AbC_x-9&export=download") "1AbC_x-9").
  - reflexivity.
  - repeat constructor.
  - reflexivity.
Defined.

Lemma parse_url_id_overrides_patterns_witness :
  (1 < 2 ->
   exists warnings,
     @parse_url UrllibRef.lib "https://drive.google.com/file/d/ABC/view?id=1&id=2" false
     = Ok (None, false, warnings))
  /\ (forall patterns,
        @parse_url_with UrllibRef.lib patterns
          "https://drive.google.com/file/d/ABC/view?id=1&id=2" false
        = @parse_url UrllibRef.lib
            "https://drive.google.com/file/d/ABC/view?id=1&id=2" false).
Proof.
  apply (@parse_url_id_overrides_patterns UrllibRef.lib
           "https://drive.google.com/file/d/ABC/view?id=1&id=2" false
           (mkParseResult (Some "drive.google.com") "/file/d/ABC/view"
                          "id=1&id=2") ["1"; "2"]).
  - reflexivity.
  - repeat constructor.
  - reflexivity.
Defined.

(** C8, as claimed, fails: a [/file] path that ends in [htmlview] is
    among the claimed shapes, and the resolver finds no identifier in it;
    and with an [id] field in the query the identifier of the path is not
    the one returned. *)
Lemma parse_url_file_htmlview :
  (In "htmlview" documented_endings
   /\ @urlparse UrllibRef.lib "https://drive.google.com/file/d/ABC/htmlview"
      = Ok (mkParseResult (Some "drive.google.com")
                          (shape_path KFile None "ABC" "htmlview") "")
   /\ @parse_url UrllibRef.lib "https://drive.google.com/file/d/ABC/htmlview"
                 false
      = Ok (None, false, []))
  /\ (@urlparse UrllibRef.lib "https://drive.google.com/file/d/ABC/view?id=XYZ"
      = Ok (mkParseResult (Some "drive.google.com")
                          (shape_path KFile None "ABC" "view") "id=XYZ")
      /\ @parse_url UrllibRef.lib
           "https://drive.google.com/file/d/ABC/view?id=XYZ" false
         = Ok (Some "XYZ", false, [])).
Proof. repeat split; try reflexivity. cbn; auto. Qed.

Lemma parse_url_table_shape_witness :
  exists warnings,
    @parse_url UrllibRef.lib
      "https://docs.google.com/spreadsheets/u/0/d/1q_Z-9/htmlview?usp=sharing" false
    = Ok (Some "1q_Z-9", false, warnings).
Proof.
  apply (@parse_url_table_shape UrllibRef.lib
           "https://docs.google.com/spreadsheets/u/0/d/1q_Z-9/htmlview?usp=sharing"
           false
           (mkParseResult (Some "docs.google.com")
                          "/spreadsheets/u/0/d/1q_Z-9/htmlview" "usp=sharing")
           KSpreadsheets (Some "0") "1q_Z-9" "htmlview").
  - reflexivity.
  - repeat constructor.
  - reflexivity.
  - reflexivity.
  - cbn; auto.
  - reflexivity.
  - reflexivity.
Defined.

(** * The confirmation page *)

Section GreedyFacts.
Implicit Types (s t u : string) (k : cont) (caps : captures).

(** A greedy star of the dot fails when its continuation fails at every
    point of the rest of the line. *)
Lemma greedy_loop_none k t : forall fuel pos caps,
  (forall a b, t = a +:+ b -> k (pos + Str.len a) b caps = None) ->
  greedy_loop (rmatch (Cls Any)) k fuel pos t caps = None.
Proof.
  induction t as [|c t IH]; intros fuel pos caps Hk.
  - pose proof (Hk "" "" eq_refl) as H0.
    change (Str.len "") with 0 in H0. rewrite Nat.add_0_r in H0.
    destruct fuel; cbn [greedy_loop]; [done|].
    by rewrite rmatch_Cls_nil, H0.
  - pose proof (Hk "" (String c t) eq_refl) as H0.
    change (Str.len "") with 0 in H0. rewrite Nat.add_0_r in H0.
    destruct fuel; cbn [greedy_loop]; [done|].
    rewrite rmatch_Cls_cons, H0.
    destruct (cls_mem Any c); [|done].
    rewrite ltb_succ, IH; [done|].
    intros a b ->. specialize (Hk (String c a) b eq_refl).
    rewrite str_len_cons in Hk.
    by replace (S pos + Str.len a) with (pos + S (Str.len a)) by lia.
Qed.

(** A greedy star of the dot stops at the last point where its
    continuation accepts. *)
Lemma greedy_loop_last k v u t : forall fuel pos caps,
  no_newline u = true ->
  Str.len u <= fuel ->
  k (pos + Str.len u) t caps = Some v ->
  (forall a b, t = a +:+ b -> a <> "" ->
               k (pos + Str.len u + Str.len a) b caps = None) ->
  greedy_loop (rmatch (Cls Any)) k fuel pos (u +:+ t) caps = Some v.
Proof.
  induction u as [|c u IH]; intros fuel pos caps Hu Hfuel Hk Hfail.
  - change (Str.len "") with 0 in *. rewrite Nat.add_0_r in Hk.
    rewrite str_app_nil_l.
    destruct fuel; cbn [greedy_loop]; [done|].
    destruct t as [|c t]; [by rewrite rmatch_Cls_nil, Hk|].
    rewrite rmatch_Cls_cons.
    destruct (cls_mem Any c); [|by rewrite Hk].
    rewrite ltb_succ, greedy_loop_none; [by rewrite Hk|].
    intros a b ->. specialize (Hfail (String c a) b eq_refl).
    rewrite str_len_cons, Nat.add_0_r in Hfail.
    replace (S pos + Str.len a) with (pos + S (Str.len a)) by lia.
    by apply Hfail.
  - cbn [no_newline all_chars] in Hu. apply andb_true_iff in Hu as [Hc Hu].
    rewrite str_len_cons in Hfuel, Hk.
    destruct fuel as [|fuel]; [lia|].
    rewrite str_app_cons. cbn [greedy_loop].
    rewrite rmatch_Cls_cons. cbn [cls_mem]. rewrite Hc, ltb_succ.
    rewrite (IH fuel (S pos) caps); try done; [lia| |].
    + by replace (S pos + Str.len u) with (pos + S (Str.len u)) by lia.
    + intros a b -> Ha. specialize (Hfail a b eq_refl Ha).
      rewrite str_len_cons in Hfail.
      by replace (S pos + Str.len u + Str.len a)
        with (pos + S (Str.len u) + Str.len a) by lia.
Qed.

(** On a line that is one caption element the pattern captures the
    caption text. *)
Lemma error_pattern_caption_line caption :
  no_newline caption = true ->
  re_search error_pattern (error_open_tag +:+ caption +:+ "</p>")
  = Some [(1, caption)].
Proof.
  intros Hc. unfold re_search.
  assert (rmatch error_pattern 0 (error_open_tag +:+ caption +:+ "</p>") []
                 accept = Some [(1, caption)]) as E.
  { unfold error_pattern. cbn [Seq].
    rewrite rmatch_Cat, rmatch_Lit, rmatch_Cat, rmatch_Group, rmatch_Star.
    apply greedy_loop_last; try done.
    - rewrite str_len_app. lia.
    - cbv beta. cbn [rmatch Str.startswith Ascii.eqb Bool.eqb andb].
      unfold accept. by rewrite str_len_app, Nat.add_sub, str_take_app.
    - intros a b E Ha. apply rmatch_Lit_mismatch.
      destruct a as [|a1 a]; [done|].
      rewrite str_app_cons in E. injection E as <- E.
      repeat (destruct a as [|? a];
              [ rewrite str_app_nil_l in E; subst b; reflexivity
              | rewrite str_app_cons in E;
                first [discriminate E | injection E as <- E] ]). }
  destruct (error_open_tag +:+ caption +:+ "</p>");
    cbn [search_from]; by rewrite E.
Qed.

End GreedyFacts.

Section ConfirmationFacts.
Context `{UrlLib} `{HtmlLib}.

(** Lines on which no pattern matches are passed over. *)
Lemma scan_lines_skip pre rest url :
  Forall (fun l => scan_line l = Ok None) pre ->
  scan_lines (pre ++ rest) url = scan_lines rest url.
Proof.
  induction 1 as [|l pre Hl _ IH]; [done|].
  cbn [app scan_lines]. rewrite Hl. exact IH.
Qed.


(** C6 (amended): when the first line on which a pattern matches is the
    line of the scenario, the resolution returns the captured URL with the
    two unicode escapes decoded and the escaped slashes as they are; with
    plain slashes in the line it returns the URL of the scenario. *)
Theorem downloadUrl_line_resolves contents pre post :
  Forall (fun l => scan_line l = Ok None) pre ->
  (Str.splitlines contents = pre ++ escaped_downloadUrl_line :: post ->
   select_download_form escaped_downloadUrl_line = None ->
   get_url_from_gdrive_confirmation contents
   = Ok ("https:" +:+ backslash +:+ "/" +:+ backslash +:+ "/host"
         +:+ backslash +:+ "/path=X&confirm=Y"))
  /\ (Str.splitlines contents = pre ++ plain_downloadUrl_line :: post ->
      select_download_form plain_downloadUrl_line = None ->
      get_url_from_gdrive_confirmation contents
      = Ok "https://host/path=X&confirm=Y").
Proof.
  intros Hpre. split; intros Hlines Hform;
    unfold get_url_from_gdrive_confirmation;
    rewrite Hlines, scan_lines_skip by done;
    cbn [scan_lines]; unfold scan_line;
    match goal with
    | |- context [re_search href_pattern ?l] =>
        replace (re_search href_pattern l) with (@None captures)
          by (vm_compute; reflexivity)
    end;
    rewrite Hform; reflexivity.
Qed.

End ConfirmationFacts.



(** C6, as claimed, fails: on the line of the scenario the escaped slashes
    stay in the returned URL; and a download link on an earlier line is
    returned instead of the URL of the scenario's line. *)
Lemma escaped_slashes_are_kept :
  @get_url_from_gdrive_confirmation UrllibRef.lib no_form_html
    escaped_downloadUrl_line
  <> Ok "https://host/path=X&confirm=Y"
  /\ @get_url_from_gdrive_confirmation UrllibRef.lib no_form_html
       (two_lines href_line plain_downloadUrl_line)
     = Ok "https://docs.google.com/uc?export=download&id=X".
Proof. split; [vm_compute; discriminate|reflexivity]. Qed.

Lemma downloadUrl_line_resolves_witness :
  (@get_url_from_gdrive_confirmation UrllibRef.lib no_form_html
     (two_lines "<html>" escaped_downloadUrl_line)
   = Ok ("https:" +:+ backslash +:+ "/" +:+ backslash +:+ "/host"
         +:+ backslash +:+ "/path=X&confirm=Y"))
  /\ (@get_url_from_gdrive_confirmation UrllibRef.lib no_form_html
        (two_lines "<html>" plain_downloadUrl_line)
      = Ok "https://host/path=X&confirm=Y").
Proof.
  assert (Forall (fun l => @scan_line UrllibRef.lib no_form_html l = Ok None)
                 ["<html>"]) as Hpre by repeat constructor.
  split.
  - apply (proj1 (@downloadUrl_line_resolves UrllibRef.lib no_form_html
                    (two_lines "<html>" escaped_downloadUrl_line)
                    ["<html>"] [] Hpre)); reflexivity.
  - apply (proj2 (@downloadUrl_line_resolves UrllibRef.lib no_form_html
                    (two_lines "<html>" plain_downloadUrl_line)
                    ["<html>"] [] Hpre)); reflexivity.
Defined.

(** * The transfer and its temporary file *)

Section FsFacts.
Variable flt : fs_op -> option exn.
Implicit Types (w : World) (p q : Path).

Lemma is_dir_file w p c :
  no_components p = false -> files w !! p = Some (File c) -> is_dir w p = false.
Proof. intros Hn Hp. unfold is_dir. by rewrite Hn, Hp. Qed.

Lemma open_wb_ok p w w' :
  open_wb flt p w = (Ok tt, w') ->
  files w' = <[p := File ""]> (files w) /\ trace w' = trace w ++ [Opened p].
Proof.
  unfold open_wb. destruct (is_dir w p); [done|].
  unfold check_fault. destruct (flt (OpOpen p)); [done|].
  by intros [= <-].
Qed.

Lemma open_wb_raise p w w' e :
  open_wb flt p w = (Raise e, w') -> w' = w.
Proof.
  unfold open_wb. destruct (is_dir w p); [by intros [= _ <-]|].
  unfold check_fault. destruct (flt (OpOpen p)); [by intros [= _ <-]|done].
Qed.

(** Writing chunks changes the content of the open file and nothing
    else, also when a write fails. *)
Lemma write_chunks_spec `{UrlLib} (env : SysEnv) p cs : forall i w r w' c,
  write_chunks env p i cs w = (r, w') ->
  files w !! p = Some (File c) ->
  exists c' evs,
    files w' = <[p := File c']> (files w)
    /\ trace w' = trace w ++ evs
    /\ Forall (fun ev => exists chunk, ev = Wrote p chunk) evs.
Proof.
  induction cs as [|chunk cs IH]; intros i w r w' c Hrun Hp.
  - injection Hrun as <- <-. exists c, [].
    rewrite insert_id by done. by rewrite List.app_nil_r.
  - cbn [write_chunks] in Hrun. unfold mbind, M_bind in Hrun.
    unfold write at 1 in Hrun. unfold check_fault in Hrun.
    destruct (fault env (OpWrite p i)) as [e|].
    + injection Hrun as <- <-. exists c, [].
      rewrite insert_id by done. by rewrite List.app_nil_r.
    + cbn in Hrun.
      eapply IH in Hrun as (c' & evs & Hf & Ht & Hev).
      2:{ cbn [files]. rewrite lookup_alter_eq, Hp. reflexivity. }
      cbn [files trace] in Hf, Ht.
      exists c', (Wrote p chunk :: evs). split; [|split].
      * rewrite Hf. apply map_eq. intros q.
        destruct (decide (p = q)) as [->|Hne].
        -- by rewrite !lookup_insert_eq.
        -- by rewrite !lookup_insert_ne, lookup_alter_ne.
      * rewrite Ht. by rewrite <- List.app_assoc.
      * constructor; [by eexists|done].
Qed.

Lemma stream_to_spec `{UrlLib} (env : SysEnv) p response w r w' c :
  stream_to env p response w = (r, w') ->
  files w !! p = Some (File c) ->
  exists c' evs,
    files w' = <[p := File c']> (files w)
    /\ trace w' = trace w ++ evs
    /\ Forall (fun ev => exists chunk, ev = Wrote p chunk) evs.
Proof.
  unfold stream_to, mbind, M_bind. intros Hrun Hp.
  destruct (write_chunks env p 0 (chunks response) w) as [[[]|e] w1] eqn:E.
  - eapply write_chunks_spec in E as (c' & evs & Hf & Ht & Hev); [|done].
    exists c', evs.
    destruct (stream_error response); injection Hrun as <- <-; done.
  - eapply write_chunks_spec in E as (c' & evs & Hf & Ht & Hev); [|done].
    exists c', evs. injection Hrun as <- <-; done.
Qed.

Lemma rename_ok src dst w w' :
  rename flt src dst w = (Ok tt, w') ->
  exists n, files w !! src = Some n
    /\ files w' = (if bool_decide (src = dst) then files w
                   else <[dst := n]> (delete src (files w)))
    /\ trace w' = trace w ++ [Renamed src dst].
Proof.
  unfold rename. destruct (files w !! src) as [n|]; [|done].
  destruct (is_dir w dst); [done|].
  unfold check_fault. destruct (flt (OpRename src dst)); [done|].
  intros [= <-]. by exists n.
Qed.

Lemma rename_raise src dst w w' e :
  rename flt src dst w = (Raise e, w') -> w' = w.
Proof.
  unfold rename. destruct (files w !! src) as [n|]; [|by intros [= _ <-]].
  destruct (is_dir w dst); [by intros [= _ <-]|].
  unfold check_fault.
  destruct (flt (OpRename src dst)); [by intros [= _ <-]|done].
Qed.

Lemma save_file_ok p content w w' :
  save_file flt p content w = (Ok tt, w') ->
  files w' = <[p := File content]> (files w)
  /\ trace w' = trace w ++ [Saved p].
Proof.
  unfold save_file. destruct (is_dir w p); [done|].
  unfold check_fault. destruct (flt (OpSave p)); [done|].
  by intros [= <-].
Qed.

Lemma save_file_raise p content w w' e :
  save_file flt p content w = (Raise e, w') -> w' = w.
Proof.
  unfold save_file. destruct (is_dir w p); [by intros [= _ <-]|].
  unfold check_fault. destruct (flt (OpSave p)); [by intros [= _ <-]|done].
Qed.

End FsFacts.

Section CleanupFacts.
Implicit Types (w : World) (p q temp out : Path).

(** The handler removes the temporary file when it is there. *)
Lemma cleanup_file temp e c w :
  no_components temp = false ->
  files w !! temp = Some (File c) ->
  cleanup temp e w =
    (Raise (FileURLRetrievalError ("Download failed due to " +:+ exn_str e)),
     mkWorld (delete temp (files w)) (trace w ++ [Unlinked temp])).
Proof.
  intros Hn Hp. unfold cleanup, path_exists, unlink, is_dir.
  rewrite Hn, Hp. unfold mbind, M_bind. simpl. by rewrite Hp.
Qed.

Lemma cleanup_absent temp e w :
  no_components temp = false ->
  files w !! temp = None ->
  cleanup temp e w =
    (Raise (FileURLRetrievalError ("Download failed due to " +:+ exn_str e)),
     w).
Proof.
  intros Hn Hp. unfold cleanup, path_exists. by rewrite Hn, Hp.
Qed.

End CleanupFacts.

Section TempPathFacts.
Implicit Types (temp out : Path).

Lemma temp_path_name out temp :
  temp_path out = Ok temp ->
  no_components temp = false /\ name temp = stem out +:+ ".part".
Proof.
  unfold temp_path. intros [_ ->]%with_suffix_ok.
  unfold no_components, name. cbn [parts].
  rewrite List.last_last. split; [|done].
  by destruct (removelast (parts out)).
Qed.

Lemma cookies_path_name (env : SysEnv) :
  name (cookies_path env) = "cookies.txt".
Proof.
  unfold cookies_path, joinpath.
  change (of_str ".cache/gdown/cookies.txt")
    with (mkPath "" [".cache"; "gdown"; "cookies.txt"]).
  cbn [root parts Str.truthy String.eqb negb]. unfold name. cbn [parts].
  change [".cache"; "gdown"; "cookies.txt"]
    with ([".cache"; "gdown"] ++ ["cookies.txt"]).
  by rewrite List.app_assoc, List.last_last.
Qed.

(** The cookie file is never the temporary file of a download. *)
Lemma cookies_path_not_temp (env : SysEnv) out temp :
  temp_path out = Ok temp -> cookies_path env <> temp.
Proof.
  intros [_ Hname]%temp_path_name E.
  rewrite <- E, cookies_path_name in Hname.
  generalize dependent (stem out). intros s Hs.
  repeat (destruct s as [|? s];
          [ discriminate Hs
          | rewrite str_app_cons in Hs;
            first [discriminate Hs | injection Hs as <- Hs] ]).
Qed.

End TempPathFacts.

Section TransferFacts.
Context `{UrlLib} (env : SysEnv).
Implicit Types (w : World) (temp out : Path).

Lemma only_temp_opened temp evs :
  Forall (fun ev => exists chunk, ev = Wrote temp chunk) evs ->
  forall p, Opened p ∈ Opened temp :: evs -> p = temp.
Proof.
  intros Hev p [Hp|Hp]%elem_of_cons; [congruence|].
  rewrite Forall_forall in Hev. apply Hev in Hp as [chunk Hp]. discriminate.
Qed.

Lemma only_temp_opened_renamed temp out evs :
  Forall (fun ev => exists chunk, ev = Wrote temp chunk) evs ->
  forall p, Opened p ∈ Opened temp :: evs ++ [Renamed temp out] -> p = temp.
Proof.
  intros Hev p [Hp|Hp]%elem_of_cons; [congruence|].
  apply elem_of_app in Hp as [Hp|Hp].
  - rewrite Forall_forall in Hev. apply Hev in Hp as [chunk Hp]. discriminate.
  - apply list_elem_of_singleton in Hp. discriminate.
Qed.

Lemma save_cookies_ok cookies_file response w w' :
  save_cookies env cookies_file response w = (Ok tt, w') ->
  client_cookies response = []
  /\ files w' = <[cookies_file := File (cookiejar_dump env [])]> (files w)
  /\ trace w' = trace w ++ [Saved cookies_file].
Proof.
  unfold save_cookies. destruct (client_cookies response); [|done].
  intros [Hf Ht]%save_file_ok. done.
Qed.

Lemma save_cookies_raise cookies_file response w w' e :
  save_cookies env cookies_file response w = (Raise e, w') -> w' = w.
Proof.
  unfold save_cookies. destruct (client_cookies response).
  - apply save_file_raise.
  - by intros [= _ <-].
Qed.

(** What [transfer] leaves behind: on success the file is renamed; on
    failure either nothing was opened, or only the temporary file was
    touched, or the file had been renamed already. *)
Lemma transfer_spec url use_cookies cookies_file response lm out temp
      w r w' :
  no_components temp = false ->
  cookies_file <> temp ->
  transfer env url use_cookies cookies_file response lm out temp w = (r, w') ->
  exists evs,
    trace w' = trace w ++ evs
    /\ (forall p, Opened p ∈ evs -> p = temp)
    /\ match r with
       | Ok resp =>
           resp = mkGdownRsp url (str out) lm (total_time env)
           /\ Opened temp ∈ evs /\ Renamed temp out ∈ evs
           /\ (temp <> out -> files w' !! temp = None)
       | Raise e =>
           (evs = [] /\ w' = w)
           \/ (Opened temp ∈ evs /\ (forall s d, Renamed s d ∉ evs)
               /\ exists c, files w' = <[temp := File c]> (files w))
           \/ (Opened temp ∈ evs /\ Renamed temp out ∈ evs
               /\ (temp <> out -> files w' !! temp = None)
               /\ (temp = out -> exists c, files w' !! temp = Some (File c)))
       end.
Proof.
  intros Hn Hck. unfold transfer, mbind, M_bind.
  destruct (open_wb (fault env) temp w) as [[[]|e1] w1] eqn:E1.
  2:{ apply open_wb_raise in E1 as ->. intros [= <- <-].
      exists []. rewrite List.app_nil_r. split; [done|].
      split; [by intros p Hp%elem_of_nil|]. auto. }
  apply open_wb_ok in E1 as [Hf1 Ht1].
  unfold lift at 1.
  destruct (match header response "Content-Length" with
            | Some v => py_int env v | None => Ok 0%Z end) as [z|e2].
  2:{ intros [= <- <-]. exists [Opened temp]. split; [done|].
      split; [by intros p [= ->]%list_elem_of_singleton|].
      right; left. split; [set_solver|]. split; [|by exists ""].
      intros s d Hin. apply list_elem_of_singleton in Hin. discriminate. }
  destruct (stream_to env temp response w1) as [[[]|e3] w2] eqn:E3;
    eapply stream_to_spec in E3 as (c2 & evs2 & Hf2 & Ht2 & Hev2);
    try (rewrite Hf1; apply lookup_insert_eq);
    rewrite Hf1, insert_insert_eq in Hf2; rewrite Ht1 in Ht2.
  2:{ intros [= <- <-]. exists (Opened temp :: evs2).
      split; [by rewrite Ht2, <- List.app_assoc|].
      split; [by apply only_temp_opened|].
      right; left. split; [set_solver|]. split; [|by exists c2].
      intros s d [Hin|Hin]%elem_of_cons; [discriminate|].
      rewrite Forall_forall in Hev2.
      apply Hev2 in Hin as [chunk Hin]. discriminate. }
  destruct (rename (fault env) temp out w2) as [[[]|e4] w3] eqn:E4.
  2:{ apply rename_raise in E4 as ->. intros [= <- <-].
      exists (Opened temp :: evs2).
      split; [by rewrite Ht2, <- List.app_assoc|].
      split; [by apply only_temp_opened|].
      right; left. split; [set_solver|]. split; [|by exists c2].
      intros s d [Hin|Hin]%elem_of_cons; [discriminate|].
      rewrite Forall_forall in Hev2.
      apply Hev2 in Hin as [chunk Hin]. discriminate. }
  apply rename_ok in E4 as (n & Hsrc & Hf3 & Ht3).
  rewrite Ht2 in Ht3.
  assert (temp <> out -> files w3 !! temp = None) as Hgone.
  { intros Hne. rewrite Hf3, bool_decide_eq_false_2 by done.
    rewrite lookup_insert_ne by done. apply lookup_delete_eq. }
  assert (temp = out -> exists c, files w3 !! temp = Some (File c)) as Hkept.
  { intros Heq. rewrite Hf3, bool_decide_eq_true_2 by done.
    exists c2. rewrite Hf2. apply lookup_insert_eq. }
  destruct use_cookies.
  - destruct (save_cookies env cookies_file response w3)
      as [[[]|e5] w4] eqn:E5.
    + apply save_cookies_ok in E5 as (_ & Hf4 & Ht4). rewrite Ht3 in Ht4.
      intros [= <- <-].
      exists (Opened temp :: evs2 ++ [Renamed temp out; Saved cookies_file]).
      split.
      { rewrite Ht4. rewrite <- !List.app_assoc. reflexivity. }
      split.
      { intros p [Hp|Hp]%elem_of_cons; [congruence|].
        apply elem_of_app in Hp as [Hp|Hp].
        - rewrite Forall_forall in Hev2.
          apply Hev2 in Hp as [chunk Hp]. discriminate.
        - apply elem_of_cons in Hp as [Hp|Hp]; [discriminate|].
          apply list_elem_of_singleton in Hp. discriminate. }
      split; [done|]. split; [set_solver|]. split; [set_solver|].
      intros Hne. rewrite Hf4, lookup_insert_ne by done. by apply Hgone.
    + apply save_cookies_raise in E5 as ->. intros [= <- <-].
      exists (Opened temp :: evs2 ++ [Renamed temp out]).
      split; [by rewrite Ht3, <- !List.app_assoc|].
      split; [by apply only_temp_opened_renamed|].
      right; right. split; [set_solver|]. split; [set_solver|]. done.
  - intros [= <- <-].
    exists (Opened temp :: evs2 ++ [Renamed temp out]).
    split; [by rewrite Ht3, <- !List.app_assoc|].
    split; [by apply only_temp_opened_renamed|].
    split; [done|]. split; [set_solver|]. split; [set_solver|]. done.
Qed.

End TransferFacts.

Section DownloadFacts.
Context `{UrlLib} (env : SysEnv).
Implicit Types (w : World) (temp out : Path).

(** The first [try] block leaves the file system as it is and reads the
    cookie file at its fixed place. *)
Lemma connect_spec url proxy use_cookies verify user_agent w r w' :
  connect env url proxy use_cookies verify user_agent w = (r, w') ->
  w' = w
  /\ forall client cookies_file response,
       r = Ok (client, cookies_file, response) ->
       cookies_file = cookies_path env.
Proof.
  unfold connect, try_except, mbind, M_bind, _get_session, lift, raise.
  destruct (use_cookies && path_exists w (cookies_path env)).
  - destruct (files w !! cookies_path env) as [[c|]|].
    + destruct (cookiejar_load env c) as [jar|e].
      * destruct (http_get env _ url verify) as [response|e]; cbn.
        -- intros [= <- <-]. split; [done|]. by intros ??? [= _ <- _].
        -- destruct e; intros [= <- <-]; by split.
      * destruct e; intros [= <- <-]; by split.
    + intros [= <- <-]; by split.
    + intros [= <- <-]; by split.
  - destruct (http_get env _ url verify) as [response|e]; cbn.
    + intros [= <- <-]. split; [done|]. by intros ??? [= _ <- _].
    + destruct e; intros [= <- <-]; by split.
Qed.

Lemma plan_spec url output response w lm out temp :
  plan env url output response w = Ok (lm, out, temp) ->
  temp_path out = Ok temp.
Proof.
  unfold plan, mbind, Result_bind.
  destruct (_get_modified_time_from_response env response); [|done].
  match goal with
  | |- context [temp_path ?o] => destruct (temp_path o) eqn:E; [|done]
  end.
  by intros [= _ <- <-].
Qed.

(** What a call of [download] returns and leaves behind, with the file
    operations [evs] that it has performed. *)
Lemma download_outcome url output proxy use_cookies verify user_agent
      w r w' :
  download env url output proxy use_cookies verify user_agent w = (r, w') ->
  exists evs,
    trace w' = trace w ++ evs
    /\ (forall resp, r = Ok resp ->
          exists out temp,
            rsp_url resp = url
            /\ rsp_output resp = str out /\ temp_path out = Ok temp
            /\ Opened temp ∈ evs /\ Renamed temp out ∈ evs
            /\ (temp <> out -> files w' !! temp = None))
    /\ (forall e temp, r = Raise e -> Opened temp ∈ evs ->
          files w' !! temp = None
          /\ ((forall s d, Renamed s d ∉ evs) ->
              files w' = delete temp (files w))).
Proof.
  unfold download.
  destruct (connect env url proxy use_cookies verify _ w)
    as [[[[client cookies_file] response]|e0] w0] eqn:E0;
    apply connect_spec in E0 as [-> Hck].
  2:{ intros [= <- <-]. exists []. rewrite List.app_nil_r.
      split; [done|]. split; [done|]. by intros e temp _ Hin%elem_of_nil. }
  specialize (Hck _ _ _ eq_refl). subst cookies_file.
  destruct (plan env url output response w) as [[[lm out] temp0]|e1] eqn:E1.
  2:{ intros [= <- <-]. exists []. rewrite List.app_nil_r.
      split; [done|]. split; [done|]. by intros e temp _ Hin%elem_of_nil. }
  apply plan_spec in E1.
  pose proof (temp_path_name _ _ E1) as [Hn _].
  pose proof (cookies_path_not_temp env _ _ E1) as Hne.
  unfold try_except.
  destruct (transfer env url use_cookies (cookies_path env) response lm out
                     temp0 w) as [[resp|e2] w2] eqn:E2;
    apply transfer_spec in E2 as (evs & Ht & Honly & Hcase); try done.
  - (* success *)
    destruct Hcase as (-> & Hop & Hren & Hgone).
    intros [= <- <-]. exists evs. split; [done|]. split.
    + intros resp [= <-]. by exists out, temp0.
    + by intros e temp [=].
  - (* failure: the handler runs *)
    destruct Hcase as [[-> ->]|[(Hop & Hnoren & c & Hf)|(Hop & Hren & Hgone & Hkept)]].
    + (* nothing was opened *)
      destruct (files w !! temp0) as [[c|]|] eqn:Etemp.
      * rewrite (cleanup_file temp0 e2 c) by done. intros [= <- <-].
        exists [Unlinked temp0]. split; [done|]. split; [done|].
        intros e temp _ Hin%list_elem_of_singleton. discriminate.
      * unfold cleanup, path_exists, unlink, is_dir, mbind, M_bind.
        rewrite Hn, Etemp. simpl. rewrite Etemp. intros [= <- <-].
        exists []. rewrite List.app_nil_r. split; [done|]. split; [done|].
        by intros e temp _ Hin%elem_of_nil.
      * rewrite cleanup_absent by done. intros [= <- <-].
        exists []. rewrite List.app_nil_r. split; [done|]. split; [done|].
        by intros e temp _ Hin%elem_of_nil.
    + (* only the temporary file was touched *)
      rewrite (cleanup_file temp0 e2 c)
        by (try done; rewrite Hf; apply lookup_insert_eq).
      intros [= <- <-]. exists (evs ++ [Unlinked temp0]).
      cbn [trace files]. split; [by rewrite Ht, List.app_assoc|].
      split; [done|].
      intros e temp _ [Hin|Hin]%elem_of_app.
      2:{ apply list_elem_of_singleton in Hin. discriminate. }
      apply Honly in Hin as ->.
      rewrite Hf, delete_insert_eq. split; [apply lookup_delete_eq|done].
    + (* the file had been renamed *)
      destruct (decide (temp0 = out)) as [Heq|Hneq].
      * destruct (Hkept Heq) as [c Hc].
        rewrite (cleanup_file temp0 e2 c) by done.
        intros [= <- <-]. exists (evs ++ [Unlinked temp0]).
        cbn [trace files]. split; [by rewrite Ht, List.app_assoc|].
        split; [done|].
        intros e temp _ [Hin|Hin]%elem_of_app.
        2:{ apply list_elem_of_singleton in Hin. discriminate. }
        apply Honly in Hin as ->. split; [apply lookup_delete_eq|].
        intros Hno. exfalso. apply (Hno temp0 out). set_solver.
      * rewrite cleanup_absent by auto.
        intros [= <- <-]. exists evs. split; [done|]. split; [done|].
        intros e temp _ Hin. apply Honly in Hin as ->.
        split; [by apply Hgone|].
        intros Hno. exfalso. by apply (Hno temp0 out).
Qed.


End DownloadFacts.



(** * The fan-out *)

Section FanOutFacts.
Context `{UrlLib} (env : SysEnv).
Implicit Types (w : World) (urls : list string).

Lemma download_ok_url url output proxy use_cookies verify user_agent
      w resp w' :
  download env url output proxy use_cookies verify user_agent w
  = (Ok resp, w') ->
  rsp_url resp = url.
Proof.
  intros Hrun.
  destruct (download_outcome env _ _ _ _ _ _ _ _ _ Hrun)
    as (evs & _ & Hok & _).
  by destruct (Hok resp eq_refl) as (out & temp & Hurl & _).
Qed.

(** One future per URL. *)
Lemma submit_all_length pool fn urls w :
  length (submit_all pool fn urls w) = length urls.
Proof. unfold submit_all. apply length_imap. Qed.

(** The result iterator raises as soon as a future holds an exception. *)
Lemma result_iterator_raise {A} (fs : list (future A)) e :
  Failed e ∈ fs -> exists e', result_iterator fs = Raise e'.
Proof.
  induction fs as [|f fs IH]; [by intros ?%elem_of_nil|].
  intros [<-|Hin]%elem_of_cons; [by exists e|].
  destruct f as [a|e0|]; [|by exists e0|by exists CancelledError].
  destruct (IH Hin) as [e' E]. exists e'.
  cbn [result_iterator future_result mbind Result_bind]. by rewrite E.
Qed.

(** It builds the list of the results when every call has returned. *)
Lemma result_iterator_returned {A} (results : list A) :
  result_iterator (List.map Returned results) = Ok results.
Proof.
  induction results as [|a results IH]; [done|].
  cbn [List.map result_iterator future_result mbind Result_bind].
  by rewrite IH.
Qed.

(** And only then. *)
Lemma result_iterator_ok {A} (fs : list (future A)) results :
  result_iterator fs = Ok results -> fs = List.map Returned results.
Proof.
  revert results. induction fs as [|f fs IH]; intros results.
  - by intros [= <-].
  - destruct f as [a|e|]; cbn [result_iterator future_result mbind Result_bind];
      [|done|done].
    destruct (result_iterator fs) as [l|e] eqn:E; [|done].
    intros [= <-]. cbn [List.map]. f_equal. by apply IH.
Qed.

(** C1 (amended): over a list of URLs one call is submitted per URL, in
    input order, and the results are read in input order inside the one
    [try] block of the method; when the call of some URL raises, and so
    when exactly one does, [FilesDownloader.download] returns the single
    value [None] for the whole list and none of the records; it returns a
    list only when every call has returned, and the list then holds the
    records of the calls, one per URL, in input order.  This holds for
    every pool: which calls it starts and how they interleave plays no
    part. *)
Theorem fan_out_failure_returns_none (pool : Pool) urls output proxy
        use_cookies verify user_agent w fs :
  submit_all pool
             (fun u => download env u output proxy use_cookies verify
                                user_agent) urls w = fs ->
  length fs = length urls
  /\ ((exists e, Failed e ∈ fs) ->
      (FilesDownloader.download env pool (UrlList urls) output proxy
                                use_cookies verify user_agent w).1
      = PyNone)
  /\ (forall items,
        (FilesDownloader.download env pool (UrlList urls) output proxy
                                  use_cookies verify user_agent w).1
        = PyListOf items ->
        exists results,
          fs = List.map Returned results
          /\ items = List.map Some results
          /\ length results = length urls)
  /\ (forall results,
        fs = List.map Returned results ->
        (FilesDownloader.download env pool (UrlList urls) output proxy
                                  use_cookies verify user_agent w).1
        = PyListOf (List.map Some results)).
Proof.
  intros Hfs.
  assert (length fs = length urls) as Hlen
    by (rewrite <- Hfs; apply submit_all_length).
  split; [done|].
  unfold FilesDownloader.download. rewrite Hfs. split; [|split].
  - intros [e [e' ->]%result_iterator_raise]. done.
  - intros items.
    destruct (result_iterator fs) as [results|e] eqn:E; [|done].
    intros [= <-]. exists results.
    apply result_iterator_ok in E. split; [done|]. split; [done|].
    by rewrite <- Hlen, E, length_map.
  - intros results ->. by rewrite result_iterator_returned.
Qed.

End FanOutFacts.

(** C1, as claimed, fails: of three URLs the second fails and the other
    two succeed; the call returns [None], not three outcomes.  So it is on
    the pool that has started every call, where the third call returns, and
    on the pool that has not started the third call, which is cancelled. *)
Lemma fan_out_one_failure_returns_none :
  (List.map is_returned
     (submit_all in_turn_pool
        (fun u => @download UrllibRef.lib (example_env no_fault) u ArgNone None
                            false true None) example_urls empty_world)
   = [true; false; true]
   /\ (@FilesDownloader.download UrllibRef.lib (example_env no_fault)
         in_turn_pool (UrlList example_urls) ArgNone None false true None
         empty_world).1
      = PyNone)
  /\ (submit_all cancelling_pool
        (fun u => @download UrllibRef.lib (example_env no_fault) u ArgNone None
                            false true None) example_urls empty_world
      = [Returned (mkGdownRsp "https://example.com/a.bin" "a.bin" None "0.25");
         Failed (FileURLRetrievalError
                   "Failed to retrieve file from https://example.com/missing");
         Cancelled]
      /\ (@FilesDownloader.download UrllibRef.lib (example_env no_fault)
            cancelling_pool (UrlList example_urls) ArgNone None false true
            None empty_world).1
         = PyNone).
Proof. vm_compute. repeat split. Qed.

Lemma fan_out_failure_returns_none_witness :
  (@FilesDownloader.download UrllibRef.lib (example_env no_fault)
     in_turn_pool (UrlList example_urls) ArgNone None false true None
     empty_world).1
  = PyNone.
Proof.
  destruct (@fan_out_failure_returns_none UrllibRef.lib (example_env no_fault)
              in_turn_pool example_urls ArgNone None false true None
              empty_world _ eq_refl)
    as (_ & Hfail & _).
  apply Hfail.
  exists (FileURLRetrievalError
            "Failed to retrieve file from https://example.com/missing").
  vm_compute. right. left.
Defined.

(** * More on the identifier resolver *)

Section ParseUrlMore.
Context `{UrlLib}.
Implicit Types (url : string) (parsed : ParseResult).

(** X1: for a URL whose host is not one of the two provider hosts the
    resolver returns no identifier and issues no warning, whatever the
    query and the path hold; the flag is still computed from the path. *)
Theorem parse_url_other_host url warning parsed :
  urlparse url = Ok parsed ->
  pr_hostname parsed ∉ [Some "drive.google.com"; Some "docs.google.com"] ->
  parse_url url warning
  = Ok (None, Str.endswith "/uc" (pr_path parsed), []).
Proof.
  intros Hp Hh. unfold parse_url, parse_url_with, is_google_drive_url.
  rewrite Hp. cbn [mbind Result_bind].
  by rewrite bool_decide_eq_false_2.
Qed.

(** X2: on a provider URL exactly one warning is issued when warnings are
    asked for and the path does not end in [/uc], and none otherwise; the
    warning names the identifier found; and the returned identifier and
    flag do not depend on whether warnings are asked for. *)
Theorem parse_url_warning url warning parsed file_id is_download_link
        warnings :
  urlparse url = Ok parsed ->
  pr_hostname parsed ∈ [Some "drive.google.com"; Some "docs.google.com"] ->
  parse_url url warning = Ok (file_id, is_download_link, warnings) ->
  is_download_link = Str.endswith "/uc" (pr_path parsed)
  /\ warnings = (if warning && negb is_download_link
                 then [not_download_link_warning file_id] else [])
  /\ parse_url url (negb warning)
     = Ok (file_id, is_download_link,
           if negb warning && negb is_download_link
           then [not_download_link_warning file_id] else []).
Proof.
  intros Hp Hh. unfold parse_url, parse_url_with, is_google_drive_url.
  rewrite Hp. cbn [mbind Result_bind].
  rewrite bool_decide_eq_true_2 by done. cbn [negb].
  intros [= <- <- <-]. done.
Qed.

End ParseUrlMore.

Lemma parse_url_other_host_witness :
  @parse_url UrllibRef.lib "https://example.com/file/d/ABC/view?id=XYZ" true
  = Ok (None, false, []).
Proof.
  apply (@parse_url_other_host UrllibRef.lib
           "https://example.com/file/d/ABC/view?id=XYZ" true
           (mkParseResult (Some "example.com") "/file/d/ABC/view" "id=XYZ")).
  - reflexivity.
  - intros Hin. apply elem_of_cons in Hin as [Hin|Hin]; [discriminate|].
    apply list_elem_of_singleton in Hin. discriminate.
Defined.

Lemma parse_url_warning_witness :
  false = Str.endswith "/uc" "/file/d/ABC/view"
  /\ [not_download_link_warning (Some "ABC")]
     = (if true && negb false
        then [not_download_link_warning (Some "ABC")] else [])
  /\ @parse_url UrllibRef.lib "https://drive.google.com/file/d/ABC/view" false
     = Ok (Some "ABC", false, []).
Proof.
  apply (@parse_url_warning UrllibRef.lib
           "https://drive.google.com/file/d/ABC/view" true
           (mkParseResult (Some "drive.google.com") "/file/d/ABC/view" "")
           (Some "ABC") false [not_download_link_warning (Some "ABC")]).
  - reflexivity.
  - repeat constructor.
  - reflexivity.
Defined.

(** * What the pattern table accepts *)

Section TableSound.
Implicit Types (s t u id ds ending : string) (k : cont) (caps : captures)
         (kd : doc_kind).

(** A star of a character class, greedy or lazy, consumes a run of
    characters of the class before its continuation accepts. *)
Lemma greedy_loop_inv c k v : forall fuel pos s caps,
  greedy_loop (rmatch (Cls c)) k fuel pos s caps = Some v ->
  exists u t, s = u +:+ t /\ all_chars (cls_mem c) u = true
              /\ k (pos + Str.len u) t caps = Some v.
Proof.
  induction fuel as [|fuel IH]; intros pos s caps; cbn [greedy_loop].
  - intros Hk. exists "", s. change (Str.len "") with 0.
    by rewrite Nat.add_0_r.
  - intros [Hstep|Hk]%orelse_inv.
    + destruct s as [|a s]; [by rewrite rmatch_Cls_nil in Hstep|].
      rewrite rmatch_Cls_cons in Hstep.
      destruct (cls_mem c a) eqn:Ha; [|done].
      rewrite ltb_succ in Hstep.
      apply IH in Hstep as (u & t & -> & Hu & Hk).
      exists (String a u), t. rewrite str_app_cons, str_len_cons.
      split; [done|]. split; [cbn [all_chars]; by rewrite Ha, Hu|].
      by replace (pos + S (Str.len u)) with (S pos + Str.len u) by lia.
    + exists "", s. change (Str.len "") with 0. by rewrite Nat.add_0_r.
Qed.

Lemma lazy_loop_inv c k v : forall fuel pos s caps,
  lazy_loop (rmatch (Cls c)) k fuel pos s caps = Some v ->
  exists u t, s = u +:+ t /\ all_chars (cls_mem c) u = true
              /\ k (pos + Str.len u) t caps = Some v.
Proof.
  induction fuel as [|fuel IH]; intros pos s caps; cbn [lazy_loop].
  - intros [Hk|?]%orelse_inv; [|done]. exists "", s.
    change (Str.len "") with 0. by rewrite Nat.add_0_r.
  - intros [Hk|Hstep]%orelse_inv.
    + exists "", s. change (Str.len "") with 0. by rewrite Nat.add_0_r.
    + destruct s as [|a s]; [by rewrite rmatch_Cls_nil in Hstep|].
      rewrite rmatch_Cls_cons in Hstep.
      destruct (cls_mem c a) eqn:Ha; [|done].
      rewrite ltb_succ in Hstep.
      apply IH in Hstep as (u & t & -> & Hu & Hk).
      exists (String a u), t. rewrite str_app_cons, str_len_cons.
      split; [done|]. split; [cbn [all_chars]; by rewrite Ha, Hu|].
      by replace (pos + S (Str.len u)) with (S pos + Str.len u) by lia.
Qed.

(** The end of a pattern, with what it captures. *)
Lemma ending_inv_caps kd pos s caps v :
  rmatch (Seq [Lit "/"; Group 2 (endings_regex kd); Eol]) pos s caps accept
    = Some v ->
  exists x e, In x (table_endings kd) /\ (e = "" \/ e = String newline "")
              /\ s = "/" +:+ x +:+ e /\ v = (2, x) :: caps.
Proof.
  cbn [Seq]. rewrite rmatch_Cat.
  intros (s1 & -> & Hm)%rmatch_Lit_inv.
  rewrite rmatch_Cat, rmatch_Group in Hm.
  destruct kd; unfold endings_regex, edit_view, edit_htmlview_view in Hm;
    repeat (rewrite rmatch_Alt in Hm; apply orelse_inv in Hm as [Hm|Hm]);
    apply rmatch_Lit_inv in Hm as (e & -> & [He Hv]%rmatch_Eol_inv);
    unfold accept in Hv; injection Hv as <-;
    match goal with
    | |- context ["/" +:+ ?x +:+ e] => exists x, e
    end;
    (split; [cbn; auto|]); (split; [exact He|]); (split; [reflexivity|]);
    destruct He as [-> | ->]; reflexivity.
Qed.

Lemma id_and_ending_inv kd pos s caps v :
  rmatch (id_and_ending (endings_regex kd)) pos s caps accept = Some v ->
  exists id x e,
    no_newline id = true /\ In x (table_endings kd)
    /\ (e = "" \/ e = String newline "")
    /\ s = id +:+ "/" +:+ x +:+ e /\ group 1 v = Some id.
Proof.
  unfold id_and_ending. cbn [Seq].
  rewrite rmatch_Cat, rmatch_Group, rmatch_LazyStar.
  intros (id & t & -> & Hid & Hk)%lazy_loop_inv.
  apply ending_inv_caps in Hk as (x & e & Hx & He & -> & ->).
  exists id, x, e. repeat (split; [done|]).
  cbn [group Nat.eqb]. by rewrite str_len_app, Nat.add_sub, str_take_app.
Qed.

Lemma plain_pattern_inv kd prefix path m :
  re_match (plain_pattern prefix (endings_regex kd)) path = Some m ->
  exists id x e,
    no_newline id = true /\ In x (table_endings kd)
    /\ (e = "" \/ e = String newline "")
    /\ path = prefix +:+ id +:+ "/" +:+ x +:+ e /\ group 1 m = Some id.
Proof.
  unfold re_match, plain_pattern.
  rewrite rmatch_Cat, rmatch_Bol, rmatch_Cat.
  intros (s1 & -> & Hm)%rmatch_Lit_inv.
  apply id_and_ending_inv in Hm as (id & x & e & ? & ? & ? & -> & ?).
  by exists id, x, e.
Qed.

Lemma account_pattern_inv kd prefix path m :
  re_match (account_pattern prefix (endings_regex kd)) path = Some m ->
  exists ds id x e,
    is_account ds = true /\ no_newline id = true
    /\ In x (table_endings kd) /\ (e = "" \/ e = String newline "")
    /\ path = prefix +:+ ds +:+ "/d/" +:+ id +:+ "/" +:+ x +:+ e
    /\ group 1 m = Some id.
Proof.
  unfold re_match, account_pattern.
  rewrite rmatch_Cat, rmatch_Bol, rmatch_Cat.
  intros (s1 & -> & Hm)%rmatch_Lit_inv.
  rewrite rmatch_Cat in Hm. unfold digits, Plus in Hm.
  rewrite rmatch_Cat in Hm.
  destruct s1 as [|d s1]; [by rewrite rmatch_Cls_nil in Hm|].
  rewrite rmatch_Cls_cons in Hm.
  destruct (cls_mem (Range "0" "9") d) eqn:Hd; [|done].
  rewrite rmatch_Star in Hm.
  apply greedy_loop_inv in Hm as (u & t & -> & Hu & Hm).
  rewrite rmatch_Cat in Hm.
  apply rmatch_Lit_inv in Hm as (s2 & -> & Hm).
  apply id_and_ending_inv in Hm as (id & x & e & ? & ? & ? & -> & ?).
  exists (String d u), id, x, e.
  split; [unfold is_account; cbn [Str.truthy all_chars]; by rewrite Hd, Hu|].
  split; [done|]. split; [done|]. split; [done|]. split; [|done].
  by rewrite !str_app_cons.
Qed.

Ltac table_row_plain kd pre alt path :=
  let E := fresh "E" in
  let Hg := fresh "Hg" in
  let Hg' := fresh "Hg'" in
  destruct (re_match (plain_pattern pre alt) path) eqn:E;
  [ intros Hg;
    apply (plain_pattern_inv kd) in E
      as (id' & x & e & ? & ? & ? & -> & Hg');
    rewrite Hg' in Hg; injection Hg as ->;
    exists kd, None, x, e;
    split; [done|]; split; [done|]; split; [done|]; split; [done|];
    rewrite shape_path_plain, !str_app_assoc; reflexivity
  | clear E ].

Ltac table_row_account kd pre alt path :=
  let E := fresh "E" in
  let Hg := fresh "Hg" in
  let Hg' := fresh "Hg'" in
  destruct (re_match (account_pattern pre alt) path) eqn:E;
  [ intros Hg;
    apply (account_pattern_inv kd) in E
      as (ds & id' & x & e & ? & ? & ? & ? & -> & Hg');
    rewrite Hg' in Hg; injection Hg as ->;
    exists kd, (Some ds), x, e;
    split; [done|]; split; [done|]; split; [done|]; split; [done|];
    rewrite shape_path_account, !str_app_assoc; reflexivity
  | clear E ].

(** Whatever the table extracts is the identifier of a path of one of its
    shapes, possibly followed by one line feed. *)
Lemma match_patterns_sound path id :
  match_patterns PARSING_PATTERNS path None = Some id ->
  exists kd account ending e,
    In ending (table_endings kd)
    /\ match account with Some ds => is_account ds = true | None => True end
    /\ no_newline id = true
    /\ (e = "" \/ e = String newline "")
    /\ path = shape_path kd account id ending +:+ e.
Proof.
  rewrite PARSING_PATTERNS_shapes. cbn [match_patterns].
  table_row_plain KFile "/file/d/" edit_view path.
  table_row_account KFile "/file/u/" edit_view path.
  table_row_plain KDocument "/document/d/" edit_htmlview_view path.
  table_row_account KDocument "/document/u/" edit_htmlview_view path.
  table_row_plain KPresentation "/presentation/d/" edit_htmlview_view path.
  table_row_account KPresentation "/presentation/u/" edit_htmlview_view path.
  table_row_plain KSpreadsheets "/spreadsheets/d/" edit_htmlview_view path.
  table_row_account KSpreadsheets "/spreadsheets/u/" edit_htmlview_view path.
  done.
Qed.

End TableSound.

Section ParseUrlSound.
Context `{UrlLib}.

(** X3: on a provider URL without [id] field, an identifier is returned
    only for a path of a shape of the table (followed by at most one line
    feed), and it is the identifier of that path; it holds no line feed. *)
Theorem parse_url_identifier_from_table url warning parsed id
        is_download_link warnings :
  urlparse url = Ok parsed ->
  pr_hostname parsed ∈ [Some "drive.google.com"; Some "docs.google.com"] ->
  dict_mem "id" (parse_qs (pr_query parsed)) = false ->
  parse_url url warning = Ok (Some id, is_download_link, warnings) ->
  exists kd account ending e,
    In ending (table_endings kd)
    /\ match account with Some ds => is_account ds = true | None => True end
    /\ no_newline id = true
    /\ (e = "" \/ e = String newline "")
    /\ pr_path parsed = shape_path kd account id ending +:+ e.
Proof.
  intros Hp Hh Hq.
  destruct (parse_url_with_provider PARSING_PATTERNS url warning parsed Hp Hh)
    as [ws E].
  unfold parse_url. rewrite E, Hq. intros [= Hm _ _].
  by apply match_patterns_sound.
Qed.

End ParseUrlSound.

Lemma parse_url_identifier_from_table_witness :
  exists kd account ending e,
    In ending (table_endings kd)
    /\ match account with Some ds => is_account ds = true | None => True end
    /\ no_newline "1AbC" = true
    /\ (e = "" \/ e = String newline "")
    /\ "/document/u/2/d/1AbC/edit" = shape_path kd account "1AbC" ending +:+ e.
Proof.
  apply (@parse_url_identifier_from_table UrllibRef.lib
           "https://docs.google.com/document/u/2/d/1AbC/edit#heading=h.1" false
           (mkParseResult (Some "docs.google.com")
                          "/document/u/2/d/1AbC/edit" "")
           "1AbC" false []).
  - reflexivity.
  - repeat constructor.
  - reflexivity.
  - reflexivity.
Defined.

(** * More on the confirmation page *)

Section DictFacts.
Context {V : Type}.
Implicit Types (d : dict V) (k : string).



End DictFacts.

Section ConfirmationMore.
Context `{UrlLib} `{HtmlLib}.

(** X4: when no line of the page matches a pattern or holds the download
    form (in particular on an empty page) the resolution fails with the
    message about the public link. *)
Theorem no_strategy_matches contents :
  Forall (fun line =>
            re_search href_pattern line = None
            /\ select_download_form line = None
            /\ re_search downloadUrl_pattern line = None
            /\ re_search error_pattern line = None)
         (Str.splitlines contents) ->
  get_url_from_gdrive_confirmation contents
  = Raise (FileURLRetrievalError cannot_retrieve_message).
Proof.
  intros Hall. unfold get_url_from_gdrive_confirmation.
  rewrite <- (List.app_nil_r (Str.splitlines contents)).
  rewrite scan_lines_skip; [done|].
  eapply Forall_impl; [exact Hall|].
  intros line (Hh & Hf & Hj & He). unfold scan_line.
  by rewrite Hh, Hf, Hj, He.
Qed.

(** X5: a download form without [action] attribute, on the first line
    where anything matches, makes the resolution raise [KeyError]: the
    error of the attribute access leaves the function as it is, not as a
    resolution error. *)
Theorem form_without_action contents pre line post f :
  Str.splitlines contents = pre ++ line :: post ->
  Forall (fun l => scan_line l = Ok None) pre ->
  re_search href_pattern line = None ->
  select_download_form line = Some f ->
  form_action f = None ->
  get_url_from_gdrive_confirmation contents = Raise (KeyError "action").
Proof.
  intros Hlines Hpre Hhref Hform Hact.
  unfold get_url_from_gdrive_confirmation.
  rewrite Hlines, scan_lines_skip by done.
  cbn [scan_lines]. unfold scan_line, url_from_form.
  by rewrite Hhref, Hform, Hact.
Qed.


End ConfirmationMore.

Lemma no_strategy_matches_witness :
  @get_url_from_gdrive_confirmation UrllibRef.lib no_form_html ""
  = Raise (FileURLRetrievalError cannot_retrieve_message)
  /\ @get_url_from_gdrive_confirmation UrllibRef.lib no_form_html
       (two_lines "<html>" "<body>Sign in</body>")
     = Raise (FileURLRetrievalError cannot_retrieve_message).
Proof.
  split.
  - apply (@no_strategy_matches UrllibRef.lib no_form_html ""). constructor.
  - apply (@no_strategy_matches UrllibRef.lib no_form_html
             (two_lines "<html>" "<body>Sign in</body>")).
    assert (Hlines : Str.splitlines (two_lines "<html>" "<body>Sign in</body>")
                     = ["<html>"; "<body>Sign in</body>"])
      by (vm_compute; reflexivity).
    rewrite Hlines.
    apply Forall_cons. split.
    { split; [vm_compute; reflexivity|]. split; [vm_compute; reflexivity|].
      split; vm_compute; reflexivity. }
    apply Forall_cons. split; [|constructor].
    split; [vm_compute; reflexivity|]. split; [vm_compute; reflexivity|].
    split; vm_compute; reflexivity.
Defined.

Lemma form_without_action_witness :
  @get_url_from_gdrive_confirmation UrllibRef.lib
    (form_html (mkForm None [(Some "confirm", Some "t")]))
    (two_lines "<html>" form_line)
  = Raise (KeyError "action").
Proof.
  apply (@form_without_action UrllibRef.lib
           (form_html (mkForm None [(Some "confirm", Some "t")]))
           (two_lines "<html>" form_line) ["<html>"] form_line []
           (mkForm None [(Some "confirm", Some "t")])).
  - vm_compute; reflexivity.
  - apply Forall_cons. split; [vm_compute; reflexivity|constructor].
  - vm_compute; reflexivity.
  - vm_compute; reflexivity.
  - reflexivity.
Defined.


(** * The file name of a response *)

Section FilenameFacts.
Context `{UrlLib}.

Lemma replace_go_slash s :
  Str.contains "/" (Str.replace_go "/" "_" 0 s) = false.
Proof.
  induction s as [|a s IH]; [done|].
  cbn [Str.replace_go Str.startswith].
  destruct (Ascii.eqb "/" a) eqn:E; cbn [andb].
  - change (Str.len "/" - 1) with 0.
    change ("_" +:+ ?x) with (String "_" x).
    cbn [Str.contains Ascii.eqb Bool.eqb orb]. exact IH.
  - cbn [Str.contains]. rewrite Ascii.eqb_sym, E. exact IH.
Qed.

(** X7: a file name taken from the [filename*=UTF-8''] form of the
    [Content-Disposition] header holds no slash: every slash of the
    decoded value is replaced by an underscore.  This form is used
    whenever the header has it, before the quoted form is looked at. *)
Theorem filename_star_form_has_no_slash (response : Response) m :
  re_search filename_star_pattern
            (unquote (default "" (header response "Content-Disposition")))
  = Some m ->
  exists filename,
    _get_filename_from_response response = Some filename
    /\ filename = Str.replace "/" "_" (group1 m)
    /\ Str.contains "/" filename = false.
Proof.
  intros Hm. unfold _get_filename_from_response. rewrite Hm.
  eexists. split; [reflexivity|]. split; [reflexivity|].
  unfold Str.replace. cbn [String.eqb Ascii.eqb Bool.eqb].
  apply replace_go_slash.
Qed.

End FilenameFacts.

Lemma filename_star_form_has_no_slash_witness :
  exists filename,
    @_get_filename_from_response UrllibRef.lib traversal_response
    = Some filename
    /\ filename = Str.replace "/" "_" "../../etc/passwd"
    /\ Str.contains "/" filename = false.
Proof.
  apply (@filename_star_form_has_no_slash UrllibRef.lib traversal_response
           [(1, "../../etc/passwd")]).
  vm_compute; reflexivity.
Defined.

(** * The effects of a transfer, in full *)

Section TransferEffects.
Context `{UrlLib} (env : SysEnv).
Implicit Types (w : World) (temp out p : Path).

Lemma join_empty_cons x rest :
  Str.join "" (x :: rest) = x +:+ Str.join "" rest.
Proof.
  destruct rest; cbn [Str.join]; [by rewrite str_app_nil_r|done].
Qed.

Lemma wrotes_are_writes p (cs : list string) :
  Forall (fun ev => exists chunk, ev = Wrote p chunk) (List.map (Wrote p) cs).
Proof. induction cs; constructor; eauto. Qed.

(** When every write succeeds the file holds what it held followed by
    the chunks, in order. *)
Lemma write_chunks_ok p cs : forall i w w' c,
  write_chunks env p i cs w = (Ok tt, w') ->
  files w !! p = Some (File c) ->
  files w' = <[p := File (c +:+ Str.join "" cs)]> (files w)
  /\ trace w' = trace w ++ List.map (Wrote p) cs.
Proof.
  induction cs as [|chunk cs IH]; intros i w w' c Hrun Hp.
  - injection Hrun as <-. cbn [Str.join List.map].
    rewrite str_app_nil_r, List.app_nil_r, insert_id; done.
  - cbn [write_chunks] in Hrun. unfold mbind, M_bind in Hrun.
    unfold write at 1 in Hrun. unfold check_fault in Hrun.
    destruct (fault env (OpWrite p i)) as [e|]; [done|].
    cbn in Hrun.
    eapply IH in Hrun as [Hf Ht].
    2:{ cbn [files]. rewrite lookup_alter_eq, Hp. reflexivity. }
    cbn [files trace] in Hf, Ht. split.
    + rewrite Hf, join_empty_cons, str_app_assoc. apply map_eq. intros q.
      destruct (decide (p = q)) as [->|Hne].
      * by rewrite !lookup_insert_eq.
      * by rewrite !lookup_insert_ne, lookup_alter_ne.
    + rewrite Ht. cbn [List.map]. by rewrite <- List.app_assoc.
Qed.

Lemma stream_to_ok p response w w' c :
  stream_to env p response w = (Ok tt, w') ->
  files w !! p = Some (File c) ->
  stream_error response = None
  /\ files w' = <[p := File (c +:+ body_of response)]> (files w)
  /\ trace w' = trace w ++ List.map (Wrote p) (chunks response).
Proof.
  unfold stream_to, mbind, M_bind. intros Hrun Hp.
  destruct (write_chunks env p 0 (chunks response) w) as [[[]|e] w1] eqn:E;
    [|done].
  destruct (stream_error response); [done|].
  injection Hrun as <-. split; [done|].
  by eapply write_chunks_ok.
Qed.

(** What [transfer] does, step by step: it ends at the opening of the
    temporary file, or while the body is written, or at the rename, or at
    the writing of the cookie file, or it succeeds. *)
Lemma transfer_effects url use_cookies cookies_file response lm out temp
      w r w' :
  no_components temp = false ->
  transfer env url use_cookies cookies_file response lm out temp w = (r, w') ->
  (* the temporary file could not be opened *)
  ((exists e, r = Raise e) /\ w' = w)
  (* the body could not be written or the rename failed *)
  \/ ((exists e, r = Raise e)
      /\ exists c wrotes,
           files w' = <[temp := File c]> (files w)
           /\ trace w' = trace w ++ Opened temp :: wrotes
           /\ Forall (fun ev => exists chunk, ev = Wrote temp chunk) wrotes)
  (* the cookie step failed *)
  \/ ((exists e, r = Raise e) /\ use_cookies = true
      /\ files w' = after_publish temp out (body_of response) (files w)
      /\ trace w' = trace w ++ Opened temp
                     :: List.map (Wrote temp) (chunks response)
                     ++ [Renamed temp out])
  (* success *)
  \/ (r = Ok (mkGdownRsp url (str out) lm (total_time env))
      /\ stream_error response = None
      /\ (use_cookies = true -> client_cookies response = [])
      /\ files w' =
           (if use_cookies
            then <[cookies_file := File (cookiejar_dump env [])]>
                   (after_publish temp out (body_of response) (files w))
            else after_publish temp out (body_of response) (files w))
      /\ trace w' = trace w ++ Opened temp
                     :: List.map (Wrote temp) (chunks response)
                     ++ Renamed temp out
                     :: (if use_cookies then [Saved cookies_file] else [])).
Proof.
  intros Hn. unfold transfer, mbind, M_bind.
  destruct (open_wb (fault env) temp w) as [[[]|e1] w1] eqn:E1.
  2:{ apply open_wb_raise in E1 as ->. intros [= <- <-]. left. eauto. }
  apply open_wb_ok in E1 as [Hf1 Ht1].
  unfold lift at 1.
  destruct (match header response "Content-Length" with
            | Some v => py_int env v | None => Ok 0%Z end) as [z|e2].
  2:{ intros [= <- <-]. right; left. split; [eauto|].
      exists "", []. by rewrite Hf1, Ht1. }
  destruct (stream_to env temp response w1) as [[[]|e3] w2] eqn:E3.
  2:{ eapply stream_to_spec in E3 as (c2 & evs2 & Hf2 & Ht2 & Hev2);
        [|rewrite Hf1; apply lookup_insert_eq].
      rewrite Hf1, insert_insert_eq in Hf2. rewrite Ht1 in Ht2.
      intros [= <- <-]. right; left. split; [eauto|].
      exists c2, evs2. by rewrite Hf2, Ht2, <- List.app_assoc. }
  eapply stream_to_ok in E3 as (Hnoerr & Hf2 & Ht2);
    [|rewrite Hf1; apply lookup_insert_eq].
  rewrite Hf1, insert_insert_eq in Hf2. rewrite Ht1 in Ht2.
  change ("" +:+ body_of response) with (body_of response) in Hf2.
  destruct (rename (fault env) temp out w2) as [[[]|e4] w3] eqn:E4.
  2:{ apply rename_raise in E4 as ->. intros [= <- <-].
      right; left. split; [eauto|].
      exists (body_of response), (List.map (Wrote temp) (chunks response)).
      rewrite Hf2, Ht2, <- List.app_assoc. split; [done|]. split; [done|].
      apply wrotes_are_writes. }
  apply rename_ok in E4 as (n & Hsrc & Hf3 & Ht3).
  rewrite Hf2, lookup_insert_eq in Hsrc. injection Hsrc as <-.
  assert (files w3 = after_publish temp out (body_of response) (files w))
    as Hpub.
  { rewrite Hf3, Hf2. unfold after_publish.
    case_bool_decide; [done|]. by rewrite delete_insert_eq. }
  assert (trace w3 = trace w ++ Opened temp
                       :: List.map (Wrote temp) (chunks response)
                       ++ [Renamed temp out]) as Htr.
  { rewrite Ht3, Ht2. rewrite <- !List.app_assoc. reflexivity. }
  destruct use_cookies.
  - destruct (save_cookies env cookies_file response w3)
      as [[[]|e5] w4] eqn:E5.
    + apply save_cookies_ok in E5 as (Hnone & Hf4 & Ht4).
      intros [= <- <-]. right; right; right.
      split; [done|]. split; [done|]. split; [done|].
      split; [by rewrite Hf4, Hpub|].
      rewrite Ht4, Htr. rewrite <- List.app_assoc. cbn [app].
      rewrite <- List.app_assoc. reflexivity.
    + apply save_cookies_raise in E5 as ->. intros [= <- <-].
      right; right; left. split; [eauto|]. done.
  - intros [= <- <-]. right; right; right.
    split; [done|]. split; [done|]. split; [done|]. split; [done|].
    by rewrite Htr.
Qed.

End TransferEffects.

(** * The outcomes of a download *)

Section DownloadOutcomes.
Context `{UrlLib} (env : SysEnv).
Implicit Types (w : World) (temp out p : Path).

Lemma world_eq w fs tr : files w = fs -> trace w = tr -> w = mkWorld fs tr.
Proof. destruct w. cbn. by intros -> ->. Qed.

(** The second [try] block with its handler. *)
Lemma transfer_outcomes url use_cookies response lm out temp w r w' :
  temp_path out = Ok temp ->
  try_except
    (transfer env url use_cookies (cookies_path env) response lm out temp)
    (cleanup temp) w = (r, w') ->
  transfer_outcome env url use_cookies response lm out temp w r w'.
Proof.
  intros Htemp. pose proof (temp_path_name _ _ Htemp) as [Hn _].
  unfold try_except.
  destruct (transfer env url use_cookies (cookies_path env) response lm out
                     temp w) as [r2 w2] eqn:E2.
  apply transfer_effects in E2; [|done].
  destruct E2 as [[[e ->] ->]|[([e ->] & c & wrotes & Hf & Ht & Hw)
                 |[([e ->] & Hck & Hf & Ht)|(-> & Hs & Hnone & Hf & Ht)]]].
  - (* the temporary file could not be opened *)
    destruct (files w !! temp) as [[c|]|] eqn:Etemp.
    + rewrite (cleanup_file temp e c) by done. intros [= <- <-].
      by eapply NotOpenedRemoved.
    + unfold cleanup, path_exists, unlink, is_dir, mbind, M_bind.
      rewrite Hn, Etemp. simpl. rewrite Etemp. intros [= <- <-].
      by apply NotOpenedDirectory.
    + rewrite cleanup_absent by done. intros [= <- <-].
      by apply NotOpened.
  - (* the body could not be written, or the rename failed *)
    rewrite (cleanup_file temp e c)
      by (try done; rewrite Hf; apply lookup_insert_eq).
    intros [= <- <-]. rewrite Hf, Ht, delete_insert_eq.
    rewrite <- List.app_assoc. cbn [app].
    by apply Interrupted.
  - (* the cookie step failed *)
    unfold after_publish in Hf.
    pose proof (CookieStepFailed env url use_cookies response lm out temp w
                                e Hck) as Hout.
    case_bool_decide as Heq.
    + rewrite (cleanup_file temp e (body_of response))
        by (try done; rewrite Hf; apply lookup_insert_eq).
      intros [= <- <-]. rewrite Hf, Ht, delete_insert_eq.
      rewrite <- List.app_assoc. cbn [app]. rewrite <- List.app_assoc.
      exact Hout.
    + rewrite cleanup_absent.
      * intros [= <- <-].
        by rewrite (world_eq w2 _ _ Hf Ht).
      * done.
      * rewrite Hf, lookup_insert_ne by done. apply lookup_delete_eq.
  - (* success *)
    intros [= <- <-]. rewrite (world_eq w2 _ _ Hf Ht). by apply Published.
Qed.

(** What a call of [download] does: the request fails, or the output
    cannot be planned, or the second [try] block runs. *)
Lemma download_effects url output proxy use_cookies verify user_agent
      w r w' :
  download env url output proxy use_cookies verify user_agent w = (r, w') ->
  (exists e,
     connect env url proxy use_cookies verify
             (user_agent_or_default user_agent) w = (Raise e, w)
     /\ r = Raise e /\ w' = w)
  \/ exists client response,
       connect env url proxy use_cookies verify
               (user_agent_or_default user_agent) w
       = (Ok (client, cookies_path env, response), w)
       /\ ((exists e, plan env url output response w = Raise e
                      /\ r = Raise (UnboundLocalError "temp_file")
                      /\ w' = w)
           \/ exists lm out temp,
                plan env url output response w = Ok (lm, out, temp)
                /\ temp_path out = Ok temp
                /\ transfer_outcome env url use_cookies response lm out
                                    temp w r w').
Proof.
  unfold download. fold (user_agent_or_default user_agent).
  destruct (connect env url proxy use_cookies verify _ w)
    as [[[[client cookies_file] response]|e0] w0] eqn:E0;
    pose proof (connect_spec _ _ _ _ _ _ _ _ _ E0) as [-> Hck].
  2:{ intros [= <- <-]. left. by exists e0. }
  specialize (Hck _ _ _ eq_refl). subst cookies_file.
  intros Hrun. right. exists client, response. split; [done|].
  destruct (plan env url output response w) as [[[lm out] temp]|e1] eqn:E1.
  2:{ injection Hrun as <- <-. left. by exists e1. }
  pose proof (plan_spec _ _ _ _ _ _ _ _ E1) as Htemp.
  right. exists lm, out, temp. split; [done|]. split; [done|].
  by apply transfer_outcomes.
Qed.

End DownloadOutcomes.

(** * What a download leaves behind, and what it raises *)

Section AfterPublish.
Implicit Types (temp out p : Path) (fs : gmap Path node).

Lemma after_publish_out temp out body fs :
  after_publish temp out body fs !! out = Some (File body).
Proof.
  unfold after_publish. case_bool_decide as E.
  - subst. apply lookup_insert_eq.
  - apply lookup_insert_eq.
Qed.

Lemma after_publish_other temp out body fs p :
  p <> temp -> p <> out -> after_publish temp out body fs !! p = fs !! p.
Proof.
  intros Ht Ho. unfold after_publish. case_bool_decide.
  - by rewrite lookup_insert_ne.
  - by rewrite lookup_insert_ne, lookup_delete_ne.
Qed.

End AfterPublish.

Section DownloadLeaves.
Context `{UrlLib} (env : SysEnv).
Implicit Types (w : World) (temp out p : Path).

Lemma get_session_world proxy use_cookies ua w r w' :
  _get_session env proxy use_cookies ua w = (r, w') -> w' = w.
Proof.
  unfold _get_session.
  destruct (use_cookies && path_exists w (cookies_path env)).
  - destruct (files w !! cookies_path env) as [[c|]|].
    + destruct (cookiejar_load env c); by intros [= _ <-].
    + by intros [= _ <-].
    + by intros [= _ <-].
  - by intros [= _ <-].
Qed.


(** X8: after a successful download the record names the URL and the
    final path, the body of the response came without error, and the final
    path holds exactly the chunks of the body joined in order; with cookies
    in use the client held no cookie (the loop over its cookies would have
    raised) and the cookie file holds the empty jar; and every path other
    than the final path, the temporary path and that cookie file is as
    before the call. *)
Theorem download_success_saves_body url output proxy use_cookies verify
        user_agent w resp w' :
  download env url output proxy use_cookies verify user_agent w
  = (Ok resp, w') ->
  exists client response lm out temp,
    connect env url proxy use_cookies verify
            (user_agent_or_default user_agent) w
    = (Ok (client, cookies_path env, response), w)
    /\ plan env url output response w = Ok (lm, out, temp)
    /\ resp = mkGdownRsp url (str out) lm (total_time env)
    /\ stream_error response = None
    /\ (use_cookies = false \/ out <> cookies_path env ->
        files w' !! out = Some (File (body_of response)))
    /\ (use_cookies = true ->
        client_cookies response = []
        /\ files w' !! cookies_path env
           = Some (File (cookiejar_dump env [])))
    /\ (forall p, p <> out -> p <> temp ->
                  (use_cookies = true -> p <> cookies_path env) ->
                  files w' !! p = files w !! p).
Proof.
  intros Hrun. apply download_effects in Hrun
    as [(e & _ & [=] & _)|(client & response & Hc & Hrun)].
  destruct Hrun as [(e & _ & [=] & _)|(lm & out & temp & Hp & Htemp & Hout)].
  exists client, response, lm, out, temp.
  split; [done|]. split; [done|].
  inversion Hout as [Hs Hnone| | | | |]; subst.
  split; [done|]. split; [done|]. cbn [files].
  destruct use_cookies.
  - split; [|split].
    + intros [[=]|Hne]. rewrite lookup_insert_ne by congruence.
      apply after_publish_out.
    + intros _. split; [by apply Hnone|]. apply lookup_insert_eq.
    + intros p Ho Ht Hck. specialize (Hck eq_refl).
      rewrite lookup_insert_ne by congruence.
      by apply after_publish_other.
  - split; [|split].
    + intros _. apply after_publish_out.
    + intros [=].
    + intros p Ho Ht _. by apply after_publish_other.
Qed.

(** X9: when the request fails, [download] raises without touching the
    file system: an HTTP error becomes the retrieval error that names the
    URL, and any other exception leaves the function as it is. *)
Theorem download_request_failure url output proxy use_cookies verify
        user_agent w client ck w1 e :
  _get_session env proxy use_cookies (user_agent_or_default user_agent) w
  = (Ok (client, ck), w1) ->
  http_get env client url verify = Raise e ->
  download env url output proxy use_cookies verify user_agent w
  = (Raise (match e with
            | HTTPError _ =>
                FileURLRetrievalError
                  ("Failed to retrieve file from " +:+ url)
            | _ => e
            end), w).
Proof.
  intros Hs Hg. pose proof (get_session_world _ _ _ _ _ _ Hs) as ->.
  unfold download. fold (user_agent_or_default user_agent).
  unfold connect, try_except, mbind, M_bind, lift, raise.
  rewrite Hs, Hg. by destruct e.
Qed.

(** X10: with cookies in use, a cookie file that cannot be read makes
    [download] fail with the error of the reader, whatever the server
    would answer, and nothing is written. *)
Theorem download_cookie_load_failure url output proxy verify user_agent
        w c e :
  files w !! cookies_path env = Some (File c) ->
  cookiejar_load env c = Raise e ->
  (forall m, e <> HTTPError m) ->
  download env url output proxy true verify user_agent w = (Raise e, w).
Proof.
  intros Hf Hl Hne. unfold download.
  unfold connect, try_except, mbind, M_bind, lift, raise, _get_session,
    path_exists.
  rewrite Hf, orb_true_r, Hl. cbn [andb].
  destruct e; try done. by destruct (Hne msg).
Qed.

(** X11: a [Last-Modified] header that the date parser rejects makes
    [download] raise [UnboundLocalError]: the handler of the second [try]
    block reads [temp_file] before it is assigned.  Nothing is written. *)
Theorem download_unparsable_date url output proxy use_cookies verify
        user_agent w client ck w1 response v e :
  _get_session env proxy use_cookies (user_agent_or_default user_agent) w
  = (Ok (client, ck), w1) ->
  http_get env client url verify = Ok response ->
  header response "Last-Modified" = Some v ->
  parsedate_to_datetime env v = Raise e ->
  download env url output proxy use_cookies verify user_agent w
  = (Raise (UnboundLocalError "temp_file"), w).
Proof.
  intros Hs Hg Hh Hd. pose proof (get_session_world _ _ _ _ _ _ Hs) as ->.
  unfold download. fold (user_agent_or_default user_agent).
  unfold connect, try_except, mbind, M_bind, lift, raise.
  rewrite Hs, Hg. cbn.
  unfold plan, _get_modified_time_from_response, mbind, Result_bind.
  by rewrite Hh, Hd.
Qed.




End DownloadLeaves.

Lemma download_success_saves_body_witness :
  files (quiet_run no_fault ArgNone true).2 !! of_str "data.bin"
  = Some (File "hello")
  /\ (client_cookies quiet_response = []
      /\ files (quiet_run no_fault ArgNone true).2
           !! of_str "/home/user/.cache/gdown/cookies.txt"
         = Some (File ""))
  /\ files (quiet_run no_fault ArgNone true).2 !! of_str "notes.txt"
     = files empty_world !! of_str "notes.txt".
Proof.
  destruct (@download_success_saves_body UrllibRef.lib (quiet_env no_fault)
              "https://example.com/data.bin" ArgNone None true true None
              empty_world
              (mkGdownRsp "https://example.com/data.bin" "data.bin" None "0.25")
              (quiet_run no_fault ArgNone true).2)
    as (client & response & lm & out & temp & Hc & Hp & _ & _ & Hout & Hck
        & Hframe).
  { vm_compute; reflexivity. }
  vm_compute in Hc. injection Hc as <- <-.
  vm_compute in Hp. injection Hp as <- <- <-.
  split; [|split].
  - apply Hout. right. discriminate.
  - exact (Hck eq_refl).
  - apply Hframe; discriminate.
Defined.

Lemma download_request_failure_witness :
  @download UrllibRef.lib (example_env no_fault) "https://example.com/missing"
            ArgNone None false true None empty_world
  = (Raise (FileURLRetrievalError
              "Failed to retrieve file from https://example.com/missing"),
     empty_world).
Proof.
  apply (@download_request_failure UrllibRef.lib (example_env no_fault)
           "https://example.com/missing" ArgNone None false true None
           empty_world (mkClient None USER_AGENT [])
           (cookies_path (example_env no_fault)) empty_world
           (HTTPError "404 Not Found")).
  - reflexivity.
  - reflexivity.
Defined.

Lemma download_cookie_load_failure_witness :
  @download UrllibRef.lib bad_cookies_env "https://example.com/data.bin"
            ArgNone None true true None bad_cookies_world
  = (Raise (OSError "does not look like a Netscape format cookies file"),
     bad_cookies_world).
Proof.
  apply (@download_cookie_load_failure UrllibRef.lib bad_cookies_env
           "https://example.com/data.bin" ArgNone None true None
           bad_cookies_world "garbage").
  - vm_compute; reflexivity.
  - reflexivity.
  - discriminate.
Defined.

Lemma download_unparsable_date_witness :
  @download UrllibRef.lib bad_date_env "https://example.com/data.bin"
            ArgNone None false true None empty_world
  = (Raise (UnboundLocalError "temp_file"), empty_world).
Proof.
  apply (@download_unparsable_date UrllibRef.lib bad_date_env
           "https://example.com/data.bin" ArgNone None false true None
           empty_world (mkClient None USER_AGENT [])
           (cookies_path bad_date_env) empty_world bad_date_response
           "yesterday"
           (ValueError "Invalid date value or format yesterday")).
  - reflexivity.
  - reflexivity.
  - reflexivity.
  - reflexivity.
Defined.




(** * More on the temporary path *)

Section TempPathMore.
Implicit Types (p out temp : Path) (s t nm : string).

Lemma str_app_inv_head s t1 t2 : s +:+ t1 = s +:+ t2 -> t1 = t2.
Proof.
  induction s as [|a s IH]; [done|].
  rewrite !str_app_cons. intros [= E]. by apply IH.
Qed.

Lemma rfind_dot_part s : Str.rfind "." (s +:+ ".part") = Some (Str.len s).
Proof.
  induction s as [|a s IH]; [reflexivity|].
  rewrite str_app_cons. cbn [Str.rfind]. by rewrite IH.
Qed.

Lemma stem_of_name_nonempty nm : nm <> "" -> stem_of_name nm <> "".
Proof.
  intros Hn. unfold stem_of_name.
  destruct (Str.rfind "." nm) as [i|] eqn:E; [|done].
  destruct (0 <? i) eqn:Hi; [|done].
  destruct (i <? Str.len nm - 1) eqn:Hl; [|done]. cbn [andb].
  apply Nat.ltb_lt in Hi. destruct i as [|i]; [lia|].
  destruct nm as [|a nm]; [done|]. done.
Qed.

Lemma stem_of_part s : s <> "" -> stem_of_name (s +:+ ".part") = s.
Proof.
  intros Hs. unfold stem_of_name. rewrite rfind_dot_part.
  assert (0 < Str.len s) as Hpos by (destruct s; [done|cbn; lia]).
  rewrite str_len_app. change (Str.len ".part") with 5.
  replace (0 <? Str.len s) with true by (symmetry; by apply Nat.ltb_lt).
  replace (Str.len s <? Str.len s + 5 - 1) with true
    by (symmetry; apply Nat.ltb_lt; lia).
  cbn [andb]. apply str_take_app.
Qed.

Lemma with_suffix_part p :
  name p <> "" ->
  with_suffix p ".part"
  = Ok (mkPath (root p) (removelast (parts p) ++ [stem p +:+ ".part"])).
Proof.
  intros Hn. unfold with_suffix. cbn [Str.contains Ascii.eqb Bool.eqb orb].
  change (Str.truthy ".part" && negb (Str.startswith "." ".part")
          || (".part" =? ".")%string) with false. cbv iota.
  destruct (Str.truthy (name p)) eqn:T; simpl.
  - unfold stem. rewrite <- with_suffix_name_stem. unfold suffix.
    by destruct (Str.truthy (suffix_of_name (name p))).
  - by apply truthy_false in T.
Qed.

(** X15: the temporary path.  It cannot be formed when the final path
    has an empty name.  Otherwise it lies in the directory of the final
    path and is named by the stem of the final path followed by [.part];
    it is the final path itself exactly when the final path ends in
    [.part]; and it is its own temporary path. *)
Theorem temp_path_shape out :
  (name out = "" -> exists m, temp_path out = Raise (ValueError m))
  /\ (name out <> "" ->
      exists temp,
        temp_path out = Ok temp
        /\ parent temp = parent out
        /\ name temp = stem out +:+ ".part"
        /\ (temp = out <-> suffix out = ".part")
        /\ temp_path temp = Ok temp).
Proof.
  split.
  - intros Hn. unfold temp_path, with_suffix.
    cbn [Str.contains Ascii.eqb Bool.eqb orb].
    change (Str.truthy ".part" && negb (Str.startswith "." ".part")
            || (".part" =? ".")%string) with false. cbv iota.
    rewrite Hn. cbn. by eexists.
  - intros Hn. unfold temp_path. rewrite (with_suffix_part out Hn).
    eexists. split; [reflexivity|].
    assert (Hstem : stem out <> "") by by apply stem_of_name_nonempty.
    split; [|split; [|split]].
    + unfold parent. cbn [root parts]. by rewrite removelast_last.
    + unfold name. cbn [parts]. by rewrite List.last_last.
    + pose proof (name_parts out Hn) as Ep. split.
      * intros E. apply (f_equal parts) in E. cbn [parts] in E.
        rewrite Ep in E at 2. apply app_inj_tail in E as [_ E].
        unfold stem in E. rewrite <- (stem_suffix (name out)) in E at 2.
        apply str_app_inv_head in E. by unfold suffix.
      * intros Hs. destruct out as [r ps]. cbn [root parts] in *.
        f_equal. rewrite Ep at 3. do 2 f_equal.
        unfold stem, suffix in *. cbn [parts] in *.
        by rewrite <- Hs, stem_suffix.
    + assert (name (mkPath (root out)
                           (removelast (parts out) ++ [stem out +:+ ".part"]))
              = stem out +:+ ".part") as Hname
        by (unfold name; cbn [parts]; by rewrite List.last_last).
      assert (stem (mkPath (root out)
                           (removelast (parts out) ++ [stem out +:+ ".part"]))
              = stem out) as Hst.
      { exact (eq_trans (f_equal stem_of_name Hname)
                        (stem_of_part (stem out) Hstem)). }
      rewrite with_suffix_part.
      * rewrite Hst. cbn [root parts]. by rewrite removelast_last.
      * rewrite Hname. by destruct (stem out).
Qed.

End TempPathMore.

Lemma temp_path_shape_witness :
  exists temp,
    temp_path (of_str "backup/data.tar.gz") = Ok temp
    /\ parent temp = parent (of_str "backup/data.tar.gz")
    /\ name temp = stem (of_str "backup/data.tar.gz") +:+ ".part"
    /\ (temp = of_str "backup/data.tar.gz"
        <-> suffix (of_str "backup/data.tar.gz") = ".part")
    /\ temp_path temp = Ok temp.
Proof.
  apply (temp_path_shape (of_str "backup/data.tar.gz")). discriminate.
Defined.

(** * More on the archive extractor *)

Import ExtractAll.

Section ExtractAllMore.
Variable env : ArchiveEnv.

Lemma of_str_absolute fname :
  Str.truthy (root (of_str fname)) = Str.startswith "/" fname.
Proof.
  unfold of_str, splitroot.
  destruct (Str.startswith "/" fname); [|done].
  by destruct (_ =? 2).
Qed.

(** X16: a path whose last suffix is neither [.zip] nor [.tar] is
    rejected with the error that names it; no archive is opened and
    nothing is extracted, whatever the file holds. *)
Theorem extract_all_unsupported_suffix path to :
  suffix (of_str path) <> ".zip" ->
  suffix (of_str path) <> ".tar" ->
  extract_all env path to
  = (Raise (ValueError ("Could not extract '" +:+ str (of_str path)
                        +:+ "' as no appropriate extractor is found")),
     []).
Proof.
  intros Hz%String.eqb_neq Ht%String.eqb_neq. unfold extract_all.
  by rewrite select_opener_cases, Hz, Ht.
Qed.

(** X17: a zip archive is extracted to the target directory once, and
    the list returned has one path per member, in archive order: a
    relative member name is appended to the target directory, and an
    absolute member name is listed as it is, outside the target
    directory. *)
Theorem extract_all_zip_lists_members path to names :
  suffix (of_str path) = ".zip" ->
  open_archive env zipfile_ZipFile (of_str path) "r" = Ok names ->
  extractall env (of_str path) (target_dir (of_str path) to) = Ok tt ->
  exists listed,
    extract_all env path to
    = (Ok listed, [Extracted (of_str path) (target_dir (of_str path) to)])
    /\ length listed = length names
    /\ forall i fname,
         names !! i = Some fname ->
         listed !! i
         = Some (str (if Str.startswith "/" fname then of_str fname
                      else mkPath (root (target_dir (of_str path) to))
                                  (parts (target_dir (of_str path) to)
                                   ++ parts (of_str fname)))).
Proof.
  intros Hs Ho He. eexists. split; [by apply extract_all_zip|].
  split; [by rewrite length_map|].
  intros i fname Hi. rewrite list_lookup_fmap, Hi. cbn [fmap option_fmap option_map].
  unfold joinpath. by rewrite of_str_absolute.
Qed.

End ExtractAllMore.

Lemma extract_all_unsupported_suffix_witness :
  extract_all (example_archives ["a.txt"]) "backup/data.tar.xz" None
  = (Raise (ValueError ("Could not extract 'backup/data.tar.xz"
                        +:+ "' as no appropriate extractor is found")),
     []).
Proof.
  apply (extract_all_unsupported_suffix (example_archives ["a.txt"])
           "backup/data.tar.xz" None); discriminate.
Defined.

Lemma extract_all_zip_lists_members_witness :
  exists listed,
    extract_all (example_archives ["a.txt"; "/etc/passwd"]) "backup/data.zip"
                None
    = (Ok listed, [Extracted (of_str "backup/data.zip") (of_str "backup")])
    /\ listed !! 0 = Some "backup/a.txt"
    /\ listed !! 1 = Some "/etc/passwd".
Proof.
  destruct (extract_all_zip_lists_members
              (example_archives ["a.txt"; "/etc/passwd"]) "backup/data.zip"
              None ["a.txt"; "/etc/passwd"])
    as (listed & Hrun & _ & Hnames); [reflexivity..|].
  exists listed. split; [exact Hrun|]. split.
  - exact (Hnames 0 "a.txt" eq_refl).
  - exact (Hnames 1 "/etc/passwd" eq_refl).
Defined.

(** * Indentation *)

Import Utils.

Section IndentFacts.
Implicit Types (s t text prefix line : string) (a b : ascii).

(** Induction on a string, two characters at a time. *)
Lemma string_ind2 (P : string -> Prop) :
  P "" ->
  (forall a, P (String a "")) ->
  (forall a b s, P s -> P (String b s) -> P (String a (String b s))) ->
  forall s, P s.
Proof.
  intros H0 H1 H2 s.
  assert (P s /\ forall a, P (String a s)) as [Hs _]; [|exact Hs].
  induction s as [|b s [IH1 IH2]]; [by split|].
  split; [apply IH2|]. intros a. by apply H2.
Qed.

Lemma join_empty_app (l1 l2 : list string) :
  Str.join "" (l1 ++ l2) = Str.join "" l1 +:+ Str.join "" l2.
Proof.
  induction l1 as [|x l1 IH]; [done|].
  cbn [app]. by rewrite !join_empty_cons, IH, str_app_assoc.
Qed.

(** The equations of [splitlines_keepends]. *)
Lemma keepends_crlf s :
  splitlines_keepends (String "013" (String "010" s))
  = String "013" (String "010" "") :: splitlines_keepends s.
Proof. reflexivity. Qed.

Lemma keepends_break a s :
  Str.is_linebreak a = true ->
  Str.startswith (String "013" (String "010" "")) (String a s) = false ->
  splitlines_keepends (String a s) = String a "" :: splitlines_keepends s.
Proof.
  intros Ha Hs. cbn [splitlines_keepends]. rewrite Ha.
  destruct s as [|b s]; [done|].
  cbn [Str.startswith] in Hs. rewrite andb_true_r in Hs.
  rewrite (Ascii.eqb_sym a), (Ascii.eqb_sym b). by rewrite Hs.
Qed.

Lemma keepends_char a s :
  Str.is_linebreak a = false ->
  splitlines_keepends (String a s)
  = match splitlines_keepends s with
    | h :: t => String a h :: t
    | [] => [String a ""]
    end.
Proof. intros Ha. cbn [splitlines_keepends]. by rewrite Ha. Qed.

(** The three cases of a non-empty text. *)
Lemma keepends_cases a s :
  (a = "013"%char /\ exists s', s = String "010" s')
  \/ (Str.is_linebreak a = true
      /\ Str.startswith (String "013" (String "010" "")) (String a s) = false)
  \/ Str.is_linebreak a = false.
Proof.
  destruct (Str.is_linebreak a) eqn:Ha; [|by right; right].
  destruct (Ascii.eqb "013" a) eqn:Ea.
  - apply Ascii.eqb_eq in Ea as <-.
    destruct s as [|b s]; [right; left; by split|].
    destruct (Ascii.eqb "010" b) eqn:Eb.
    + apply Ascii.eqb_eq in Eb as <-. left. split; [done|by exists s].
    + right; left. split; [done|]. cbn [Str.startswith]. by rewrite Eb.
  - right; left. split; [done|]. cbn [Str.startswith]. by rewrite Ea.
Qed.

(** The lines with their boundaries make up the text. *)
Lemma join_splitlines_keepends s :
  Str.join "" (splitlines_keepends s) = s.
Proof.
  induction s as [|a|a b s IH1 IH2] using string_ind2; [done| |].
  - cbn [splitlines_keepends]. by destruct (Str.is_linebreak a).
  - destruct (keepends_cases a (String b s))
      as [[-> [s' [= -> ->]]]|[[Ha Hs]|Ha]].
    + by rewrite keepends_crlf, join_empty_cons, IH1.
    + by rewrite keepends_break, join_empty_cons, IH2.
    + rewrite keepends_char by done.
      destruct (splitlines_keepends (String b s)) as [|h t].
      * by rewrite <- IH2.
      * rewrite join_empty_cons in *. by rewrite str_app_cons, IH2.
Qed.

Lemma prefixed_line_empty line : prefixed_line "" line = line.
Proof. unfold prefixed_line. by destruct (Str.truthy _). Qed.

(** X18: with the empty prefix the text comes back as it is: the lines
    are cut with their boundaries and joined again, nothing is lost. *)
Theorem indent_empty_prefix text : indent text "" = text.
Proof.
  unfold indent.
  rewrite (map_ext _ id) by apply prefixed_line_empty.
  rewrite map_id. apply join_splitlines_keepends.
Qed.

(** Whitespace only *)

Lemma lstrip_space_cons a s :
  lstrip_space (String a s) = "" -> is_space a = true /\ lstrip_space s = "".
Proof. cbn [lstrip_space]. by destruct (is_space a). Qed.

Lemma strip_blank s : strip s = "" -> lstrip_space s = "".
Proof.
  unfold strip. intros E.
  assert (forall t, lstrip_space t = ""
                    \/ exists a r, lstrip_space t = String a r
                                   /\ is_space a = false) as Hl.
  { induction t as [|a t IH]; [by left|]. cbn [lstrip_space].
    destruct (is_space a) eqn:Ha; [done|]. right. by exists a, t. }
  destruct (Hl s) as [|(a & r & Hs & Ha)]; [done|].
  rewrite Hs in E. cbn [rstrip_space] in E. by rewrite Ha in E.
Qed.

Lemma blank_strip s : lstrip_space s = "" -> strip s = "".
Proof. unfold strip. by intros ->. Qed.

Lemma blank_lines s :
  lstrip_space s = "" ->
  Forall (fun line => lstrip_space line = "") (splitlines_keepends s).
Proof.
  induction s as [|a|a b s IH1 IH2] using string_ind2; [by constructor| |].
  - intros Hs. cbn [splitlines_keepends].
    destruct (Str.is_linebreak a); by repeat constructor.
  - intros [Ha Hs]%lstrip_space_cons.
    pose proof Hs as [Hb Hs']%lstrip_space_cons.
    destruct (keepends_cases a (String b s))
      as [[-> [s' [= -> ->]]]|[[Hbr Hst]|Hbr]].
    + rewrite keepends_crlf. constructor; [done|]. by apply IH1.
    + rewrite keepends_break by done. constructor.
      * cbn [lstrip_space]. by rewrite Ha.
      * by apply IH2.
    + rewrite keepends_char by done. specialize (IH2 Hs).
      destruct (splitlines_keepends (String b s)) as [|h t].
      * constructor; [|done]. cbn [lstrip_space]. by rewrite Ha.
      * apply Forall_cons in IH2 as [Hh Ht]. constructor; [|done].
        cbn [lstrip_space]. by rewrite Ha.
Qed.

(** X19: a text of white space only (one that [strip] empties) is
    returned as it is, whatever the prefix: no line of it is prefixed. *)
Theorem indent_blank_text text prefix :
  strip text = "" -> indent text prefix = text.
Proof.
  intros Hb%strip_blank%blank_lines. unfold indent.
  rewrite <- (join_splitlines_keepends text) at 2. f_equal.
  induction Hb as [|line lines Hl _ IH]; [done|].
  cbn [List.map]. rewrite IH. f_equal.
  unfold prefixed_line. by rewrite (blank_strip line Hl).
Qed.

(** A text without line boundary is one line. *)
Lemma keepends_one_line s :
  s <> "" ->
  forallb (fun a => negb (Str.is_linebreak a)) (list_ascii_of_string s)
  = true ->
  splitlines_keepends s = [s].
Proof.
  induction s as [|a s IH]; [done|]. intros _.
  cbn [list_ascii_of_string forallb].
  intros [Ha%negb_true_iff Hs]%andb_true_iff.
  rewrite keepends_char by done.
  destruct s as [|b s]; [done|]. by rewrite IH.
Qed.

(** X20: a text of one line, with a character that is not white space
    and without line boundary, is returned after the prefix. *)
Theorem indent_single_line text prefix :
  forallb (fun a => negb (Str.is_linebreak a)) (list_ascii_of_string text)
  = true ->
  strip text <> "" ->
  indent text prefix = prefix +:+ text.
Proof.
  intros Hone Hs. unfold indent.
  rewrite keepends_one_line; [|by intros ->|done].
  cbn [List.map Str.join]. unfold prefixed_line, Str.truthy.
  by apply String.eqb_neq in Hs as ->.
Qed.

(** After a line feed a new line starts, whatever comes before. *)
Lemma keepends_after_lf s t :
  splitlines_keepends (s +:+ String "010" t)
  = splitlines_keepends (s +:+ String "010" "") ++ splitlines_keepends t.
Proof.
  assert (Hbase : forall u, splitlines_keepends (String "010" u)
                            = String "010" "" :: splitlines_keepends u)
    by (intros u; by apply keepends_break).
  induction s as [|a|a b s IH1 IH2] using string_ind2.
  - rewrite !str_app_nil_l, !Hbase. done.
  - rewrite !str_app_cons, !str_app_nil_l.
    destruct (keepends_cases a (String "010" t))
      as [[-> _]|[[Hbr Hst]|Hbr]].
    + by rewrite !keepends_crlf.
    + rewrite (keepends_break a _ Hbr Hst).
      rewrite (keepends_break a (String "010" "") Hbr Hst).
      by rewrite !Hbase.
    + rewrite (keepends_char a (String "010" t) Hbr).
      rewrite (keepends_char a (String "010" "") Hbr).
      by rewrite !Hbase.
  - rewrite !str_app_cons.
    destruct (keepends_cases a (String b (s +:+ String "010" t)))
      as [[-> [s' [= -> _]]]|[[Hbr Hst]|Hbr]].
    + by rewrite !keepends_crlf, IH1.
    + rewrite (keepends_break a _ Hbr Hst).
      rewrite (keepends_break a (String b (s +:+ String "010" "")) Hbr Hst).
      by rewrite <- !str_app_cons, IH2.
    + rewrite (keepends_char a (String b (s +:+ String "010" t)) Hbr).
      rewrite (keepends_char a (String b (s +:+ String "010" "")) Hbr).
      rewrite <- !str_app_cons, IH2.
      destruct (splitlines_keepends (String b s +:+ String "010" ""))
        as [|h l] eqn:E; [|done].
      apply (f_equal (Str.join "")) in E.
      rewrite join_splitlines_keepends in E. done.
Qed.

(** X21: indentation works line by line: the indentation of a text
    that continues after a line feed is the indentation of the part up to
    that line feed followed by the indentation of the rest. *)
Theorem indent_after_line_feed s t prefix :
  indent (s +:+ String "010" t) prefix
  = indent (s +:+ String "010" "") prefix +:+ indent t prefix.
Proof.
  unfold indent. by rewrite keepends_after_lf, map_app, join_empty_app.
Qed.

End IndentFacts.

Lemma indent_blank_text_witness :
  indent (String " " (String "009" (String "010" " "))) ">> "
  = String " " (String "009" (String "010" " ")).
Proof.
  apply (indent_blank_text (String " " (String "009" (String "010" " ")))
                           ">> ").
  reflexivity.
Defined.

Lemma indent_single_line_witness :
  indent "  return x" "    " = "      return x".
Proof.
  apply (indent_single_line "  return x" "    "); [reflexivity|discriminate].
Defined.

(** * The registry of downloader classes *)

Import DownloaderFactory.

Section RegistryFacts.
Context {class instance : Type}.
Variable instantiate : class -> string -> Result instance.
Implicit Types (reg : gmap string class) (names : list string)
         (n s : string) (c : class).

Lemma register_lookup names c : forall reg n,
  List.fold_left (fun reg type_name => <[type_name := c]> reg) names reg !! n
  = if bool_decide (n ∈ names) then Some c else reg !! n.
Proof.
  induction names as [|m names IH]; intros reg n; cbn [List.fold_left].
  - by rewrite bool_decide_eq_false_2 by apply not_elem_of_nil.
  - rewrite IH. destruct (decide (n ∈ names)) as [Hin|Hnin].
    + rewrite !bool_decide_eq_true_2; [done| |done]. by right.
    + rewrite (bool_decide_eq_false_2 (n ∈ names)) by done.
      destruct (decide (n = m)) as [->|Hne].
      * rewrite lookup_insert_eq, bool_decide_eq_true_2; [done|by left].
      * rewrite lookup_insert_ne by done.
        rewrite bool_decide_eq_false_2; [done|].
        by intros [?|?]%elem_of_cons.
Qed.

Lemma characters_have_length_one s n :
  n ∈ iter_type_names (NamesStr s) -> Str.len n = 1.
Proof.
  cbn [iter_type_names]. induction (list_ascii_of_string s) as [|a l IH].
  - by intros ?%elem_of_nil.
  - cbn [List.map]. intros [->|Hin]%elem_of_cons; [done|by apply IH].
Qed.

Lemma character_is_iterated s a :
  a ∈ list_ascii_of_string s ->
  String a "" ∈ iter_type_names (NamesStr s).
Proof.
  cbn [iter_type_names]. induction (list_ascii_of_string s) as [|b l IH].
  - by intros ?%elem_of_nil.
  - cbn [List.map]. intros [->|Hin]%elem_of_cons; [by left|].
    right. by apply IH.
Qed.

(** X22: after a class is registered under a list of names, every name
    of the list gives an instance of that class, and every other name
    gives what it gave before. *)
Theorem register_class_list names c reg n :
  call_class class instance instantiate
             (register_class class (NamesList names) c reg) n
  = if bool_decide (n ∈ names) then instantiate c n
    else call_class class instance instantiate reg n.
Proof.
  unfold call_class, register_class. cbn [iter_type_names].
  rewrite register_lookup. by case_bool_decide.
Qed.

(** X23: when the names are given as one string of two characters or
    more, the class is registered under each character of the string and
    not under the string: asking for the string raises the error for an
    unknown type (unless the string was registered before), and asking for
    one of its characters gives an instance of the class. *)
Theorem register_class_str s c reg :
  2 <= Str.len s ->
  reg !! s = None ->
  call_class class instance instantiate
             (register_class class (NamesStr s) c reg) s
  = Raise (ValueError (unsupported_type_message s))
  /\ forall a, a ∈ list_ascii_of_string s ->
               call_class class instance instantiate
                          (register_class class (NamesStr s) c reg)
                          (String a "")
               = instantiate c (String a "").
Proof.
  intros Hlen Hnew. unfold call_class, register_class. split.
  - rewrite register_lookup, bool_decide_eq_false_2, Hnew; [done|].
    intros Hin%characters_have_length_one. lia.
  - intros a Ha%character_is_iterated.
    by rewrite register_lookup, bool_decide_eq_true_2.
Qed.

End RegistryFacts.

Lemma register_class_str_witness :
  call_class string (string * string) example_instantiate
             (register_class string (NamesStr "file(s)") "FilesDownloader" ∅)
             "file(s)"
  = Raise (ValueError (unsupported_type_message "file(s)"))
  /\ call_class string (string * string) example_instantiate
                (register_class string (NamesStr "file(s)") "FilesDownloader" ∅)
                "f"
     = Ok ("FilesDownloader", "f").
Proof.
  destruct (register_class_str example_instantiate "file(s)" "FilesDownloader"
                               ∅) as [Hwhole Hchars].
  - cbn. lia.
  - reflexivity.
  - split; [exact Hwhole|]. apply (Hchars "f"%char). by left.
Defined.

(** * The download link of the confirmation page *)

Section SearchFacts.
Implicit Types (s t w : string) (r : regex).

(** A search for a pattern that starts with a literal passes over the
    characters that are not the first character of the literal. *)
Lemma search_from_skip a w r before : forall pos s,
  Str.contains a before = false ->
  search_from (Cat (Lit (String a w)) r) pos (before +:+ s)
  = search_from (Cat (Lit (String a w)) r) (pos + Str.len before) s.
Proof.
  induction before as [|b before IH]; intros pos s Hb.
  - by rewrite str_app_nil_l, Nat.add_0_r.
  - cbn [Str.contains] in Hb. apply orb_false_iff in Hb as [Hba Hb].
    rewrite str_app_cons. cbn [search_from].
    rewrite rmatch_Cat, rmatch_Lit_mismatch.
    + cbn [orelse]. rewrite IH by done. f_equal. rewrite str_len_cons. lia.
    + cbn [Str.startswith]. by rewrite Ascii.eqb_sym, Hba.
Qed.

Lemma search_from_here r pos s v :
  rmatch r pos s [] accept = Some v -> search_from r pos s = Some v.
Proof. intros E. destruct s; cbn [search_from]; by rewrite E. Qed.

Lemma str_take_app_len s t :
  Str.take (Str.len (s +:+ t) - Str.len t) (s +:+ t) = s.
Proof. rewrite str_len_app, Nat.add_sub. apply str_take_app. Qed.

Lemma replace_amp_h s :
  Str.replace "&amp;" "&" (String "h" s)
  = String "h" (Str.replace_go "&amp;" "&" 0 s).
Proof. reflexivity. Qed.

(** The link pattern on a line that holds a link. *)
Lemma href_pattern_link before rest after :
  Str.contains "h" before = false ->
  rest <> "" ->
  all_chars (cls_mem (NotChr dquote)) rest = true ->
  re_search href_pattern
            (before +:+ ("href=" +:+ dq)
             +:+ ("/uc?export=download" +:+ rest) +:+ dq +:+ after)
  = Some [(1, "/uc?export=download" +:+ rest)].
Proof.
  intros Hb Hr Hq. unfold re_search, href_pattern. cbn [Seq].
  change ("href=" +:+ dq) with (String "h" ("ref=" +:+ dq)).
  rewrite search_from_skip by done.
  apply search_from_here.
  rewrite rmatch_Cat, rmatch_Lit, rmatch_Group, rmatch_Cat.
  rewrite str_app_assoc, rmatch_Lit.
  destruct rest as [|d ds]; [done|].
  erewrite rmatch_Plus_run; [reflexivity|done|by cbn|].
  unfold accept. do 3 f_equal.
  rewrite <- str_app_assoc. apply str_take_app_len.
Qed.

End SearchFacts.

Section ConfirmationLink.
Context `{UrlLib} `{HtmlLib}.

(** X24: the first line on which a strategy applies decides: two pages
    that agree up to and including that line resolve alike, whatever
    follows. *)
Theorem first_matching_line_decides contents1 contents2 pre line post1
        post2 :
  Str.splitlines contents1 = pre ++ line :: post1 ->
  Str.splitlines contents2 = pre ++ line :: post2 ->
  Forall (fun l => scan_line l = Ok None) pre ->
  scan_line line <> Ok None ->
  get_url_from_gdrive_confirmation contents1
  = get_url_from_gdrive_confirmation contents2.
Proof.
  intros H1 H2 Hpre Hline. unfold get_url_from_gdrive_confirmation.
  rewrite H1, H2, !scan_lines_skip by done. cbn [scan_lines].
  by destruct (scan_line line) as [[url|]|e].
Qed.

(** X25: when the first line on which a strategy applies holds a link
    [href=Q/uc?export=download...Q] (Q the double quote), with no [h]
    before it on the line, the resolution returns the address of the link
    on [docs.google.com] with every [&amp;] turned into [&]. *)
Theorem href_link_resolves contents pre post before rest after :
  Str.splitlines contents
  = pre ++ (before +:+ ("href=" +:+ dq)
            +:+ ("/uc?export=download" +:+ rest) +:+ dq +:+ after) :: post ->
  Forall (fun l => scan_line l = Ok None) pre ->
  Str.contains "h" before = false ->
  rest <> "" ->
  all_chars (cls_mem (NotChr dquote)) rest = true ->
  get_url_from_gdrive_confirmation contents
  = Ok (Str.replace "&amp;" "&"
          ("https://docs.google.com/uc?export=download" +:+ rest)).
Proof.
  intros Hlines Hpre Hb Hr Hq. unfold get_url_from_gdrive_confirmation.
  rewrite Hlines, scan_lines_skip by done.
  cbn [scan_lines]. unfold scan_line.
  rewrite href_pattern_link by done.
  cbn [mbind Result_bind group1 group Nat.eqb default].
  unfold id. rewrite <- str_app_assoc.
  change ("https://docs.google.com" +:+ "/uc?export=download")
    with "https://docs.google.com/uc?export=download".
  rewrite str_app_cons, replace_amp_h. reflexivity.
Qed.

End ConfirmationLink.

Lemma first_matching_line_decides_witness :
  @get_url_from_gdrive_confirmation UrllibRef.lib no_form_html
    (two_lines href_line caption_line)
  = @get_url_from_gdrive_confirmation UrllibRef.lib no_form_html href_line.
Proof.
  apply (@first_matching_line_decides UrllibRef.lib no_form_html
           (two_lines href_line caption_line) href_line [] href_line
           [caption_line] []).
  - vm_compute; reflexivity.
  - vm_compute; reflexivity.
  - constructor.
  - vm_compute. discriminate.
Defined.

Lemma href_link_resolves_witness :
  @get_url_from_gdrive_confirmation UrllibRef.lib no_form_html
    (two_lines "<html>" href_line)
  = Ok "https://docs.google.com/uc?export=download&id=X".
Proof.
  apply (@href_link_resolves UrllibRef.lib no_form_html
           (two_lines "<html>" href_line) ["<html>"] [] "<a " "&amp;id=X"
           ">x</a>").
  - vm_compute; reflexivity.
  - constructor; [vm_compute; reflexivity|constructor].
  - reflexivity.
  - discriminate.
  - reflexivity.
Defined.
